(** * react-navplus: active-route matching and the hover prefetch scheduler

    A shallow embedding of
      - [src/utils/matchers.ts]   (matchers, cleanUrl, isActive, isActiveWithCustomFn)
      - [src/hooks/useIsActive.ts]
      - [src/utils/prefetch.ts]   (defaultPrefetchOptions, normalizePrefetchOptions,
                                   executePrefetch)
      - [src/hooks/usePrefetch.ts]
      - [src/context/NavContext.tsx]  (NavLinkContext, NavLinkProvider)
      - [src/NavPlus.tsx]         (NavPlus: class name, children, ARIA attributes,
                                   props and tag of the rendered element, the
                                   click and pointer handlers, the navigation
                                   timer; RouterNavLink)
    and the properties of these functions.

    Conventions.  A JavaScript string is a [string] (a sequence of code units;
    equality, prefix and substring tests go unit by unit); [undefined] for an
    optional value is [None]; a JavaScript call that may throw returns a
    [Completion]; the [Map] registry of matchers and the host's timer table
    are [gmap]s.

    What is assumed of the platform.  The code runs in a page, so
    [document.createElement('link')], the attribute assignments and
    [document.head.appendChild] do not throw; [new URL(url, base)] throws on an
    invalid URL; a caller-supplied function returns or throws.  A React event
    handler is the one of the latest render, so it reads the current state. *)

From Stdlib Require Import String Ascii ZArith Bool.
From stdpp Require Import base option list strings gmap fin_maps.

Local Open Scope string_scope.

(* ===================================================================== *)
(** ** JavaScript values the code relies on *)
(* ===================================================================== *)

(** An exception value.  [TypeError] is what the platform raises (calling a
    non-function, [new URL] on an invalid URL); [UserError] stands for whatever
    a caller-supplied function throws. *)
Inductive JSError : Type :=
| TypeError (msg : string)
| UserError (msg : string).

(** The completion of a JavaScript call: a normal return or a throw. *)
Inductive Completion (A : Type) : Type :=
| Normal (a : A)
| Throw (e : JSError).
Arguments Normal {A} a.
Arguments Throw {A} e.

(** [RegExp]: the code only ever calls [pattern.test(s)], once per decision;
    [test] is the result of that call. *)
Record RegExp : Type := { test : string -> bool }.

(** [String.prototype.startsWith]: [startsWith s t] is [s.startsWith(t)]. *)
Fixpoint startsWith (s t : string) {struct t} : bool :=
  match t with
  | EmptyString => true
  | String c t' =>
      match s with
      | EmptyString => false
      | String d s' => if Ascii.eqb d c then startsWith s' t' else false
      end
  end.

(** [String.prototype.includes]: [includes s t] is [s.includes(t)], a search
    for [t] at every position of [s]. *)
Fixpoint includes (s t : string) : bool :=
  startsWith s t ||
  match s with
  | EmptyString => false
  | String _ s' => includes s' t
  end.

(** ToBoolean on a string: only the empty string is falsy. *)
Definition truthy_string (s : string) : bool :=
  match s with EmptyString => false | String _ _ => true end.

(** [a || b] on optional strings: [a] when it is defined and non-empty. *)
Definition or_string (a : option string) (b : string) : string :=
  match a with
  | Some s => if truthy_string s then s else b
  | None => b
  end.

(* ===================================================================== *)
(** ** src/utils/matchers.ts *)
(* ===================================================================== *)

Module Matchers.

(** The type of a registered matcher: [(pathname, url, pattern?) => boolean]. *)
Abbreviation Matcher := (string -> string -> option RegExp -> bool) (only parsing).

(** [export const matchers = new Map([...])]. *)
Definition matchers : gmap string Matcher :=
  list_to_map
    [ ("exact",      fun pathname url _ => String.eqb pathname url);
      ("startsWith", fun pathname url _ => startsWith pathname url);
      ("includes",   fun pathname url _ => includes pathname url);
      ("pattern",    fun pathname url pattern =>
                       match pattern with
                       | Some p => test p pathname
                       | None => false
                       end) ].

(** [cleanUrl]: the argument is [None] for [undefined]. *)
Definition cleanUrl (url : option string) : string :=
  match url with
  | None => "/"
  | Some u =>
      if negb (truthy_string u) then "/"
      else if startsWith u "/" then u else "/" ++ u
  end.

(** [isActive].  [matchMode] is any string a caller can pass ([None] for an
    omitted or undefined argument, which takes the default ['includes']).
    [matchFn!] on a missing function would be a call of [undefined]. *)
Definition isActive (pathname url : string) (matchMode : option string)
    (matchPattern : option RegExp) : Completion bool :=
  let matchMode := default "includes" matchMode in
  let matchFn :=
    match matchers !! matchMode with
    | Some f => Some f
    | None => matchers !! "includes"
    end in
  match matchFn with
  | Some f => Normal (f pathname url matchPattern)
  | None => Throw (TypeError "matchFn is not a function")
  end.

(** A caller-supplied predicate: it may return a boolean or throw. *)
Definition ActiveFn : Type := string -> string -> Completion bool.

(** [isActiveWithCustomFn]. *)
Definition isActiveWithCustomFn (pathname url : string) (isActiveFunc : ActiveFn)
  : Completion bool :=
  isActiveFunc pathname url.

End Matchers.

(* ===================================================================== *)
(** ** src/hooks/useIsActive.ts *)
(* ===================================================================== *)

Module UseIsActive.
Import Matchers.

(** [Pick<Location, 'pathname'>]. *)
Record LocationLike : Type := { pathname : string }.

(** The [options] argument of [useIsActive]; every field is optional. *)
Record Options : Type := {
  location : option LocationLike;
  matchMode : option string;
  matchPattern : option RegExp;
  customActiveUrl : option string;
  isActiveFunc : option ActiveFn
}.

(** [useIsActive(to, options)].  [useMemo] lists every value its callback
    reads as a dependency, so the hook returns what the callback computes on
    the current arguments. *)
Definition useIsActive (to : string) (options : Options) : Completion bool :=
  let matchMode := default "includes" (matchMode options) in
  match location options with
  | None => Normal false
  | Some loc =>
      if negb (truthy_string (pathname loc)) then Normal false
      else
        let urlToMatch := or_string (customActiveUrl options) to in
        match isActiveFunc options with
        | Some f => isActiveWithCustomFn (pathname loc) urlToMatch f
        | None => isActive (pathname loc) urlToMatch (Some matchMode) (matchPattern options)
        end
  end.

End UseIsActive.

(* ===================================================================== *)
(** ** Effects of the prefetch code *)
(* ===================================================================== *)

(** An [HTMLLinkElement] as the code fills it in: [document.createElement('link')]
    starts with every attribute empty. *)
Record LinkElement : Type := { rel : string; href : string; as_ : string }.

Definition createLink : LinkElement := {| rel := ""; href := ""; as_ := "" |}.

(** Which caller-supplied function a call went to. *)
Inductive Capability : Type :=
| CustomPrefetch          (* the [customPrefetch] argument *)
| ContextRouterPrefetch   (* [routerContext.router.prefetch] *)
| GlobalRouterPrefetch.   (* [window.TanStackRouter.router.prefetch] *)

(** What the prefetch code does to the world, in order. *)
Inductive Effect : Type :=
| AppendToHead (l : LinkElement)            (* document.head.appendChild(l) *)
| Invoked (c : Capability) (url : string)   (* c(url) was called *)
| ConsoleLog (msg : string)
| ConsoleWarn (msg : string)
| ConsoleError (msg : string) (error : JSError).

(** A computation with effects: the trace it leaves and how it completes. *)
Definition Eff (A : Type) : Type := (list Effect * Completion A)%type.

Definition ret {A} (a : A) : Eff A := ([], Normal a).

Definition bind {A B} (m : Eff A) (k : A -> Eff B) : Eff B :=
  match m with
  | (tr, Normal a) => let '(tr', r) := k a in ((tr ++ tr')%list, r)
  | (tr, Throw e) => (tr, Throw e)
  end.

Definition emit (e : Effect) : Eff unit := ([e], Normal tt).

Definition lift {A} (c : Completion A) : Eff A := ([], c).

(** [try { m } catch (error) { handler error }]. *)
Definition try_catch {A} (m : Eff A) (handler : JSError -> Eff A) : Eff A :=
  match m with
  | (tr, Normal a) => (tr, Normal a)
  | (tr, Throw e) => let '(tr', r) := handler e in ((tr ++ tr')%list, r)
  end.

Declare Scope eff_scope.
Delimit Scope eff_scope with eff.
Notation "x <- m ;; k" := (bind m (fun x => k))
  (at level 100, m at next level, right associativity) : eff_scope.
Notation "m ;;; k" := (bind m (fun _ => k))
  (at level 100, right associativity) : eff_scope.

(** The hints a trace registered with the document, in order. *)
Fixpoint hints (tr : list Effect) : list LinkElement :=
  match tr with
  | [] => []
  | AppendToHead l :: tr' => l :: hints tr'
  | _ :: tr' => hints tr'
  end.

(** The calls of caller-supplied functions in a trace, in order. *)
Fixpoint calls (tr : list Effect) : list (Capability * string) :=
  match tr with
  | [] => []
  | Invoked c u :: tr' => (c, u) :: calls tr'
  | _ :: tr' => calls tr'
  end.

Definition is_error_log (e : Effect) : bool :=
  match e with ConsoleError _ _ => true | _ => false end.

Definition is_warning (e : Effect) : bool :=
  match e with ConsoleWarn _ => true | _ => false end.

(* ===================================================================== *)
(** ** src/utils/prefetch.ts *)
(* ===================================================================== *)

Module Prefetch.

(** [(to: string) => void], supplied by the caller: it returns or throws.
    What else it does is its own business; a trace records that it was called. *)
Definition Callback : Type := string -> Completion unit.

(** A property of an object literal: absent, or present with a value that may
    be [undefined].  Object spread copies present properties only. *)
Inductive Field (A : Type) : Type :=
| Absent
| Present (v : option A).
Arguments Absent {A}.
Arguments Present {A} v.

(** Reading [o.f]. *)
Definition get {A} (f : Field A) : option A :=
  match f with Absent => None | Present v => v end.

(** One property of [{ ...l, ...r }]. *)
Definition spread_field {A} (l r : Field A) : Field A :=
  match r with Present v => Present v | Absent => l end.

(** [interface PrefetchOptions]. *)
Record PrefetchOptions : Type := {
  enabled : Field bool;
  delay : Field Z;
  routerType : Field string;
  customPrefetch : Field Callback
}.

(** [{ ...l, ...r }]. *)
Definition spread (l r : PrefetchOptions) : PrefetchOptions :=
  {| enabled := spread_field (enabled l) (enabled r);
     delay := spread_field (delay l) (delay r);
     routerType := spread_field (routerType l) (routerType r);
     customPrefetch := spread_field (customPrefetch l) (customPrefetch r) |}.

(** The empty object, which is also what spreading [undefined] contributes. *)
Definition empty_options : PrefetchOptions :=
  {| enabled := Absent; delay := Absent; routerType := Absent; customPrefetch := Absent |}.

Definition defaultPrefetchOptions : PrefetchOptions :=
  {| enabled := Present (Some true);
     delay := Present (Some 200%Z);
     routerType := Present (Some "react-router");
     customPrefetch := Absent |}.

(** [boolean | PrefetchOptions | undefined]. *)
Inductive PrefetchProp : Type :=
| PBool (b : bool)
| PObject (o : PrefetchOptions)
| PUndefined.

Definition normalizePrefetchOptions (prefetch : PrefetchProp) : PrefetchOptions :=
  match prefetch with
  | PBool b =>
      (* { ...defaultPrefetchOptions, enabled: prefetch } *)
      spread defaultPrefetchOptions
        {| enabled := Present (Some b); delay := Absent;
           routerType := Absent; customPrefetch := Absent |}
  | PObject o => spread defaultPrefetchOptions o
  | PUndefined => spread defaultPrefetchOptions empty_options
  end.

(** [{ prefetch?: (url) => void }] and [{ router?: ... }]: the shape read off
    [routerContext] and off [window.TanStackRouter]. *)
Record RouterHandle : Type := { prefetch : option Callback }.
Record RouterHolder : Type := { router : option RouterHandle }.

(** Optional chaining [holder?.router?.prefetch]. *)
Definition router_prefetch (holder : option RouterHolder) : option Callback :=
  match holder with
  | Some h => match router h with Some r => prefetch r | None => None end
  | None => None
  end.

(** What the code reads from its host page. *)
Record Host : Type := {
  NODE_ENV : option string;                 (* process.env.NODE_ENV *)
  location_origin : string;                 (* window.location.origin *)
  URL_origin : string -> string -> Completion string;
                                            (* new URL(url, base).origin *)
  TanStackRouter : option RouterHolder      (* window.TanStackRouter *)
}.

(** [process.env.NODE_ENV !== 'production']. *)
Definition not_production (host : Host) : bool :=
  match NODE_ENV host with
  | Some v => negb (String.eqb v "production")
  | None => true
  end.

(** Calling a caller-supplied function. *)
Definition call (c : Capability) (f : Callback) (url : string) : Eff unit :=
  (emit (Invoked c url) ;;; lift (f url))%eff.

(** The [rel='prefetch'] hint every hint-based branch builds. *)
Definition prefetch_hint (url : string) : LinkElement :=
  {| rel := "prefetch"; href := url; as_ := "document" |}.

Definition preconnect_hint (origin : string) : LinkElement :=
  {| rel := "preconnect"; href := origin; as_ := as_ createLink |}.

(** How a [case] of the [switch] ends: [Some b] is an early [return b],
    [None] a [break]. *)
Definition break_ : Eff (option bool) := ret None.
Definition return_ (b : bool) : Eff (option bool) := ret (Some b).

(** The [switch (routerType)] of [executePrefetch]. *)
Definition switch_routerType (host : Host) (url routerType : string)
    (routerContext : option RouterHolder) : Eff (option bool) :=
  (if String.eqb routerType "react-router" then
     emit (AppendToHead (prefetch_hint url)) ;;;
     origin <- lift (URL_origin host url (location_origin host)) ;;
     emit (AppendToHead (preconnect_hint origin)) ;;;
     break_
   else if String.eqb routerType "tanstack-router" then
     match router_prefetch routerContext with
     | Some f => call ContextRouterPrefetch f url ;;; break_
     | None =>
         match router_prefetch (TanStackRouter host) with
         | Some f => call GlobalRouterPrefetch f url ;;; break_
         | None =>
             emit (ConsoleWarn "TanStack Router prefetch: router instance not found") ;;;
             return_ false
         end
     end
   else if String.eqb routerType "wouter" then
     emit (AppendToHead (prefetch_hint url)) ;;; break_
   else
     emit (AppendToHead (prefetch_hint url)) ;;; break_)%eff.

Definition executePrefetch (host : Host) (url routerType : string) (isExternal : bool)
    (routerContext : option RouterHolder) (customPrefetch : option Callback) : Eff bool :=
  if isExternal then ret false
  else
    (* routerType === 'custom' && customPrefetch *)
    match (if String.eqb routerType "custom" then customPrefetch else None) with
    | Some f => (call CustomPrefetch f url ;;; ret true)%eff
    | None =>
        try_catch
          (early <- switch_routerType host url routerType routerContext ;;
           match early with
           | Some b => ret b
           | None =>
               (if not_production host
                then emit (ConsoleLog ("Prefetched: " ++ url ++ " using " ++ routerType))
                else ret tt) ;;;
               ret true
           end)%eff
          (fun error =>
             ((if not_production host
               then emit (ConsoleError ("Error prefetching " ++ url ++ ":") error)
               else ret tt) ;;;
              ret false)%eff)
    end.

End Prefetch.

(* ===================================================================== *)
(** ** src/hooks/usePrefetch.ts *)
(* ===================================================================== *)

Module UsePrefetch.
Import Prefetch.

(** The [options] argument of [usePrefetch]; every field is optional. *)
Record Options : Type := {
  prefetch : PrefetchProp;
  isExternal : option bool;
  redirection : option bool;
  disabled : option bool;
  routerContext : option RouterHolder
}.

(** ToBoolean on an optional boolean, and the two [||] defaults of the hook. *)
Definition truthy_bool (b : option bool) : bool := default false b.

Definition truthy_Z (z : Z) : bool := negb (Z.eqb z 0).

Definition or_Z (a : option Z) (b : Z) : Z :=
  match a with
  | Some z => if truthy_Z z then z else b
  | None => b
  end.

(** The destructuring default [prefetch = false]. *)
Definition prefetch_or_false (p : PrefetchProp) : PrefetchProp :=
  match p with PUndefined => PBool false | _ => p end.

(** The closure handed to [setTimeout]: the values of the render it was
    created in, and the delay it was armed with. *)
Record TimerTask : Type := {
  task_to : string;
  task_routerType : string;
  task_isExternal : bool;
  task_routerContext : option RouterHolder;
  task_customPrefetch : option Callback;
  task_delay : Z
}.

(** One run of a timer callback: the task, what [executePrefetch] did and
    how it completed. *)
Record Dispatch : Type := {
  dispatch_task : TimerTask;
  dispatch_effects : list Effect;
  dispatch_result : Completion bool
}.

(** The state of one hook instance together with the part of the host it
    touches.  A timer handle is a [positive]: the host's handles are never
    falsy.  [timers] holds the timers that are armed and have neither fired
    nor been cleared; [dispatches] records the timer callbacks that ran. *)
Record Session : Type := {
  isPrefetched : bool;                         (* useState(false) *)
  prefetchTimeoutRef : option positive;        (* useRef(null) *)
  timers : gmap positive TimerTask;
  next_handle : positive;
  dispatches : list Dispatch
}.

Definition mount : Session :=
  {| isPrefetched := false; prefetchTimeoutRef := None;
     timers := ∅; next_handle := 1%positive; dispatches := [] |}.

(** [clearTimeout(h)]. *)
Definition clearTimeout (h : positive) (s : Session) : Session :=
  {| isPrefetched := isPrefetched s;
     prefetchTimeoutRef := prefetchTimeoutRef s;
     timers := delete h (timers s);
     next_handle := next_handle s;
     dispatches := dispatches s |}.

(** [if (prefetchTimeoutRef.current) clearTimeout(prefetchTimeoutRef.current)]. *)
Definition clear_pending (s : Session) : Session :=
  match prefetchTimeoutRef s with
  | Some h => clearTimeout h s
  | None => s
  end.

(** [prefetchTimeoutRef.current = setTimeout(task, task_delay)]. *)
Definition arm (task : TimerTask) (s : Session) : Session :=
  {| isPrefetched := isPrefetched s;
     prefetchTimeoutRef := Some (next_handle s);
     timers := <[next_handle s := task]> (timers s);
     next_handle := Pos.succ (next_handle s);
     dispatches := dispatches s |}.

(** [handlePrefetch], as created by the render with arguments [to], [options]
    over the state [s]. *)
Definition handlePrefetch (to : string) (options : Options) (s : Session) : Session :=
  let isExternal := default false (isExternal options) in
  let redirection := default true (redirection options) in
  let disabled := default false (disabled options) in
  let prefetchOptions := normalizePrefetchOptions (prefetch_or_false (prefetch options)) in
  if negb (truthy_bool (get (enabled prefetchOptions)))
     || isExternal || negb redirection || disabled || isPrefetched s
  then s
  else
    arm {| task_to := to;
           task_routerType := or_string (get (routerType prefetchOptions)) "react-router";
           task_isExternal := isExternal;
           task_routerContext := routerContext options;
           task_customPrefetch := get (customPrefetch prefetchOptions);
           task_delay := or_Z (get (delay prefetchOptions)) 200 |}
        (clear_pending s).

(** [cancelPrefetch], and the cleanup of the unmount effect: the same code. *)
Definition cancelPrefetch (s : Session) : Session := clear_pending s.
Definition unmount (s : Session) : Session := clear_pending s.

(** The body of the timer callback. *)
Definition run_task (host : Host) (task : TimerTask) (s : Session) : Session :=
  let '(effects, success) :=
    executePrefetch host (task_to task) (task_routerType task) (task_isExternal task)
      (task_routerContext task) (task_customPrefetch task) in
  {| isPrefetched :=
       match success with
       | Normal true => true          (* setIsPrefetched(true) *)
       | _ => isPrefetched s
       end;
     prefetchTimeoutRef := prefetchTimeoutRef s;
     timers := timers s;
     next_handle := next_handle s;
     dispatches := dispatches s ++ [ {| dispatch_task := task;
                                        dispatch_effects := effects;
                                        dispatch_result := success |} ] |}.

(** The host fires timer [h]: nothing happens unless it is still armed; an
    armed timer leaves the table and its callback runs.  The host may fire an
    armed timer at any moment, which covers every delay. *)
Definition fire (host : Host) (h : positive) (s : Session) : Session :=
  match timers s !! h with
  | Some task => run_task host task (clearTimeout h s)
  | None => s
  end.

(** What can happen to a mounted link. *)
Inductive Event : Type :=
| HoverEnter (to : string) (options : Options)   (* handlePrefetch() of that render *)
| HoverLeave                                     (* cancelPrefetch() *)
| Unmount                                        (* the effect's cleanup *)
| TimerFires (h : positive).                     (* the host runs a timer *)

Definition step (host : Host) (s : Session) (ev : Event) : Session :=
  match ev with
  | HoverEnter to options => handlePrefetch to options s
  | HoverLeave => cancelPrefetch s
  | Unmount => unmount s
  | TimerFires h => fire host h s
  end.

(** A session: the events of one hook instance, oldest first. *)
Definition run (host : Host) (s : Session) (evs : list Event) : Session :=
  foldl (step host) s evs.

Definition succeeded (d : Dispatch) : bool :=
  match dispatch_result d with Normal true => true | _ => false end.

End UsePrefetch.

(* ===================================================================== *)
(** ** The specification's vocabulary, and sample inputs *)
(* ===================================================================== *)

Module Spec.

(** "[s] begins with [t]". *)
Definition begins_with (s t : string) : Prop := ∃ rest, s = t ++ rest.

(** "[s] contains [t] as a substring". *)
Definition contains (s t : string) : Prop := ∃ before after, s = before ++ t ++ after.

(** The four mode names of the registry. *)
Definition known_modes : list string := ["exact"; "startsWith"; "includes"; "pattern"].

(** The effective target path of the composite decision: [customActiveUrl]
    when it is supplied and not the empty string, the [to] prop otherwise. *)
Inductive effective_target (to : string) : option string -> string -> Prop :=
| target_custom (u : string) : u ≠ "" -> effective_target to (Some u) u
| target_custom_empty : effective_target to (Some "") to
| target_to : effective_target to None to.

(** One property of "the defaults shallow-merged with the object": the
    object's property when it has one, the default's otherwise. *)
Definition merged {A} (dflt obj result : Prefetch.Field A) : Prop :=
  match obj with
  | Prefetch.Absent => result = dflt
  | Prefetch.Present v => result = Prefetch.Present v
  end.

(** The property is an own property of the record. *)
Definition present {A} (f : Prefetch.Field A) : Prop :=
  match f with Prefetch.Absent => False | Prefetch.Present _ => True end.

(** What the [catch] of [executePrefetch] writes to the console. *)
Definition error_report (host : Prefetch.Host) (url : string) (error : JSError)
  : list Effect :=
  if Prefetch.not_production host
  then [ConsoleError ("Error prefetching " ++ url ++ ":") error]
  else [].

(** The development-only [console.log] after the [switch]. *)
Definition success_report (host : Prefetch.Host) (url routerType : string) : list Effect :=
  if Prefetch.not_production host
  then [ConsoleLog ("Prefetched: " ++ url ++ " using " ++ routerType)]
  else [].

(** The run of the ['tanstack-router'] branch once a capability [f] is
    chosen, by the outcome of the call: a normal return gives [true], a throw
    is reported and gives [false]. *)
Definition capability_run (host : Prefetch.Host) (c : Capability) (f : Prefetch.Callback)
    (url : string) : Eff bool :=
  match f url with
  | Normal _ => (Invoked c url :: success_report host url "tanstack-router", Normal true)
  | Throw e => (Invoked c url :: error_report host url e, Normal false)
  end.

(** [handlePrefetch] is let through: prefetching is enabled, the target is
    not external, redirection is on, the link is not disabled, and the session
    is not prefetched yet. *)
Definition let_through (options : UsePrefetch.Options) (s : UsePrefetch.Session) : Prop :=
  Prefetch.get (Prefetch.enabled
    (Prefetch.normalizePrefetchOptions
       (UsePrefetch.prefetch_or_false (UsePrefetch.prefetch options)))) = Some true
  ∧ UsePrefetch.isExternal options ≠ Some true
  ∧ UsePrefetch.redirection options ≠ Some false
  ∧ UsePrefetch.disabled options ≠ Some true
  ∧ UsePrefetch.isPrefetched s = false.

(** The strategies whose [case] does something other than add the single
    [rel='prefetch'] hint. *)
Definition two_step_strategies : list string := ["react-router"; "tanstack-router"].

(** The invariant of a session: at most one timer is armed, and it is the one
    the ref points to; nothing is armed once the session is prefetched; the
    [isPrefetched] flag tells whether a dispatch has succeeded; handles in use
    lie below the next handle. *)
Record session_ok (s : UsePrefetch.Session) : Prop := {
  ok_single :
    UsePrefetch.timers s = ∅
    ∨ ∃ h task, UsePrefetch.prefetchTimeoutRef s = Some h
                ∧ UsePrefetch.timers s = {[h := task]};
  ok_done : UsePrefetch.isPrefetched s = true → UsePrefetch.timers s = ∅;
  ok_flag :
    UsePrefetch.isPrefetched s = true
    ↔ ∃ d, d ∈ UsePrefetch.dispatches s ∧ UsePrefetch.succeeded d = true;
  ok_fresh :
    ∀ h, is_Some (UsePrefetch.timers s !! h) → (h < UsePrefetch.next_handle s)%positive
}.

End Spec.

Module Samples.
Import Prefetch.

(** [/^\/products\/[\w-]+$/], the pattern of the repository's tests. *)
Definition word_or_dash (c : ascii) : bool :=
  let n := nat_of_ascii c in
  (((48 <=? n) && (n <=? 57)) || ((65 <=? n) && (n <=? 90))
   || ((97 <=? n) && (n <=? 122)) || (n =? 95) || (n =? 45))%nat.

Fixpoint all_chars (p : ascii -> bool) (s : string) : bool :=
  match s with
  | EmptyString => true
  | String c s' => p c && all_chars p s'
  end.

Fixpoint drop_chars (n : nat) (s : string) : string :=
  match n, s with
  | O, _ => s
  | S n', String _ s' => drop_chars n' s'
  | S _, EmptyString => EmptyString
  end.

Definition products_pattern : RegExp :=
  {| test := fun s =>
       startsWith s "/products/"
       && truthy_string (drop_chars 10 s)
       && all_chars word_or_dash (drop_chars 10 s) |}.

(** A predicate that accepts every pair, and one that throws. *)
Definition always_active : Matchers.ActiveFn := fun _ _ => Normal true.
Definition failing_active : Matchers.ActiveFn := fun _ _ => Throw (UserError "isActiveFunc failed").

(** Callbacks: one that returns, one that throws. *)
Definition quiet_callback : Callback := fun _ => Normal tt.
Definition failing_callback : Callback := fun _ => Throw (UserError "prefetch failed").

(** A development page at [http://localhost].  Of its URL parser the samples
    use two facts: a same-origin target such as [/dashboard] resolves to the
    page's origin, and ["http://"], which has no host, is rejected, as the URL
    Standard requires of a special scheme with an empty host. *)
Definition dev_host : Host :=
  {| NODE_ENV := Some "development";
     location_origin := "http://localhost";
     URL_origin := fun url base =>
       if String.eqb url "http://" then Throw (TypeError "Invalid URL") else Normal base;
     TanStackRouter := None |}.

(** The same page in a production build. *)
Definition production_host : Host :=
  {| NODE_ENV := Some "production";
     location_origin := location_origin dev_host;
     URL_origin := URL_origin dev_host;
     TanStackRouter := None |}.

(** A link with prefetching switched on, and the same link disabled. *)
Definition hover_options : UsePrefetch.Options :=
  {| UsePrefetch.prefetch := PBool true;
     UsePrefetch.isExternal := None;
     UsePrefetch.redirection := None;
     UsePrefetch.disabled := None;
     UsePrefetch.routerContext := None |}.

Definition disabled_options : UsePrefetch.Options :=
  {| UsePrefetch.prefetch := PBool true;
     UsePrefetch.isExternal := None;
     UsePrefetch.redirection := None;
     UsePrefetch.disabled := Some true;
     UsePrefetch.routerContext := None |}.

(** The task a hover on [/dashboard] arms with [hover_options], and the
    dispatch that follows when its timer fires on [dev_host]. *)
Definition dashboard_task : UsePrefetch.TimerTask :=
  {| UsePrefetch.task_to := "/dashboard";
     UsePrefetch.task_routerType := "react-router";
     UsePrefetch.task_isExternal := false;
     UsePrefetch.task_routerContext := None;
     UsePrefetch.task_customPrefetch := None;
     UsePrefetch.task_delay := 200%Z |}.

Definition dashboard_dispatch : UsePrefetch.Dispatch :=
  {| UsePrefetch.dispatch_task := dashboard_task;
     UsePrefetch.dispatch_effects :=
       [ AppendToHead {| rel := "prefetch"; href := "/dashboard"; as_ := "document" |};
         AppendToHead {| rel := "preconnect"; href := "http://localhost"; as_ := "" |};
         ConsoleLog "Prefetched: /dashboard using react-router" ];
     UsePrefetch.dispatch_result := Normal true |}.

(** Hover, then the timer fires. *)
Definition hover_and_fire : list UsePrefetch.Event :=
  [ UsePrefetch.HoverEnter "/dashboard" hover_options; UsePrefetch.TimerFires 1%positive ].

(** A page that publishes a router on [window.TanStackRouter]. *)
Definition global_router_host : Host :=
  {| NODE_ENV := Some "development";
     location_origin := location_origin dev_host;
     URL_origin := URL_origin dev_host;
     TanStackRouter := Some {| router := Some {| prefetch := Some quiet_callback |} |} |}.

Definition context_with (f : Callback) : option RouterHolder :=
  Some {| router := Some {| prefetch := Some f |} |}.

End Samples.

(* ===================================================================== *)
(** ** src/context/NavContext.tsx *)
(* ===================================================================== *)

Module NavContext.
Import Prefetch.

(** [(to: string, options?: { replace?: boolean }) => void], supplied by the
    caller or by the router: the second argument is the [replace] flag. *)
Definition NavigateFn : Type := string -> bool -> Completion unit.

(** The router context as the components read it: [navigate] and [location]
    of [interface RouterContext], and the [router] that [executePrefetch]
    looks for on the same object. *)
Record RouterContext : Type := {
  navigate : option NavigateFn;
  location : option UseIsActive.LocationLike;
  router : option RouterHandle
}.

(** The same object as [executePrefetch] sees it. *)
Definition holder (rc : RouterContext) : RouterHolder :=
  {| Prefetch.router := router rc |}.

(** [interface NavLinkContextValue]. *)
Record NavLinkContextValue : Type := {
  activeMatchers : option (gmap string Matchers.Matcher);
  prefetchDefaults : option PrefetchOptions;
  routerContext : option RouterContext
}.

(** The default value given to [createContext]. *)
Definition NavLinkContext : NavLinkContextValue :=
  {| activeMatchers := Some Matchers.matchers;
     prefetchDefaults := Some defaultPrefetchOptions;
     routerContext := None |}.

(** React Router's hooks where the provider is rendered: each returns its
    value inside a router and throws outside one. *)
Record ReactRouterHooks : Type := {
  useNavigate : Completion NavigateFn;
  useLocation : Completion UseIsActive.LocationLike
}.

(** [interface NavLinkProviderProps], without [children]. *)
Record NavLinkProviderProps : Type := {
  customMatchers : option (gmap string Matchers.Matcher);
  customPrefetchDefaults : option PrefetchOptions;
  customRouterContext : option RouterContext;
  useReactRouterContext : option bool
}.

(** What the provider writes with [console.debug]: a note, outside
    production, when it tried the hooks and one of them threw. *)
Definition provider_debug (host : Host) (hooks : ReactRouterHooks)
    (props : NavLinkProviderProps) : list string :=
  if default true (useReactRouterContext props) then
    match useNavigate hooks, useLocation hooks with
    | Normal _, Normal _ => []
    | _, _ =>
        if not_production host
        then ["NavLinkProvider: React Router hooks not available"] else []
    end
  else [].

(** The [try] around the two hooks: both values or nothing. *)
Definition reactRouterContext (hooks : ReactRouterHooks) (props : NavLinkProviderProps)
  : option RouterContext :=
  if default true (useReactRouterContext props) then
    match useNavigate hooks with
    | Normal navigate =>
        match useLocation hooks with
        | Normal location =>
            Some {| navigate := Some navigate; location := Some location; router := None |}
        | Throw _ => None
        end
    | Throw _ => None
    end
  else None.

(** The context value [NavLinkProvider] hands to its children. *)
Definition NavLinkProvider (hooks : ReactRouterHooks) (props : NavLinkProviderProps)
  : NavLinkContextValue :=
  {| activeMatchers :=
       Some (default Matchers.matchers (customMatchers props));
     prefetchDefaults :=
       Some (spread defaultPrefetchOptions
               (default empty_options (customPrefetchDefaults props)));
     routerContext :=
       match customRouterContext props with
       | Some rc => Some rc
       | None => reactRouterContext hooks props
       end |}.

End NavContext.

(* ===================================================================== *)
(** ** src/NavPlus.tsx *)
(* ===================================================================== *)

Module NavPlus.
Import Prefetch.

(** A handler supplied by the caller ([onClick], [onMouseEnter], ...): it
    returns, having called [e.preventDefault()] or not, or it throws. *)
Record UserHandler : Type := {
  handler_name : string;
  handler_run : Completion bool
}.

(** A value a caller can put in a prop; an object (a style, say) is passed on
    unread and stands by its label. *)
Inductive Value : Type :=
| Undefined
| Str (s : string)
| Boolean (b : bool)
| Fn (h : UserHandler)
| Obj (label : string).

(** The component's own handlers. *)
Inductive OwnHandler : Type := HandleClick | HandleMouseEnter | HandleMouseLeave.

(** The value of a prop of the rendered element. *)
Inductive PropValue : Type :=
| Plain (v : Value)
| Own (h : OwnHandler)
| LinkRef.

(** ToBoolean. *)
Definition truthy_value (v : Value) : bool :=
  match v with
  | Undefined => false
  | Str s => truthy_string s
  | Boolean b => b
  | Fn _ => true
  | Obj _ => true
  end.

Definition optional_string (s : option string) : PropValue :=
  match s with Some s => Plain (Str s) | None => Plain Undefined end.

Definition optional_object (o : option string) : PropValue :=
  match o with Some label => Plain (Obj label) | None => Plain Undefined end.

(** [NavLinkChildren]: a function of the active state, an element whose type
    is a component, or any other node (a host element, text, ...). *)
Inductive Children : Type :=
| ChildFunction (f : bool -> string)
| ChildComponent (type : string) (props : option (gmap string Value))
| ChildNode (node : string).

(** What ends up inside the rendered element. *)
Inductive Content : Type :=
| Node (node : string)
| Cloned (type : string) (props : gmap string Value).

(** [interface NavPlusProps]; [restProps] holds the props that the component
    does not name. *)
Record Props : Type := {
  to : string;
  children : Children;
  location : option UseIsActive.LocationLike;
  navigate : option NavContext.NavigateFn;
  redirection : option bool;
  id : option string;
  inActiveClassName : option string;
  className : option string;
  activeClassName : option string;
  onClick : option UserHandler;
  matchMode : option string;
  matchPattern : option RegExp;
  replace : option bool;
  isExternal : option bool;
  aria : option (gmap string Value);
  testId : option string;
  disabled : option bool;
  activeStyle : option string;
  inactiveStyle : option string;
  customActiveUrl : option string;
  linkProps : option (gmap string Value);
  isActiveFunc : option Matchers.ActiveFn;
  navigationDelay : option Z;
  triggerEvent : option string;
  prefetch : PrefetchProp;
  as_ : option string;
  routerContext : option NavContext.RouterContext;
  restProps : gmap string Value
}.

(** [propRouterContext || context.routerContext]. *)
Definition routerContext_of (p : Props) (context : NavContext.NavLinkContextValue)
  : option NavContext.RouterContext :=
  match routerContext p with
  | Some rc => Some rc
  | None => NavContext.routerContext context
  end.

(** [navigateProp || routerContext?.navigate]. *)
Definition navigate_of (p : Props) (context : NavContext.NavLinkContextValue)
  : option NavContext.NavigateFn :=
  match navigate p with
  | Some f => Some f
  | None =>
      match routerContext_of p context with
      | Some rc => NavContext.navigate rc
      | None => None
      end
  end.

(** The options handed to [useIsActive]. *)
Definition isActive_options (p : Props) (context : NavContext.NavLinkContextValue)
  : UseIsActive.Options :=
  {| UseIsActive.location :=
       match location p with
       | Some l => Some l
       | None =>
           match routerContext_of p context with
           | Some rc => NavContext.location rc
           | None => None
           end
       end;
     UseIsActive.matchMode := Some (default "includes" (matchMode p));
     UseIsActive.matchPattern := matchPattern p;
     UseIsActive.customActiveUrl := customActiveUrl p;
     UseIsActive.isActiveFunc := isActiveFunc p |}.

(** The options handed to [usePrefetch]. *)
Definition prefetch_options (p : Props) (context : NavContext.NavLinkContextValue)
  : UsePrefetch.Options :=
  {| UsePrefetch.prefetch := UsePrefetch.prefetch_or_false (prefetch p);
     UsePrefetch.isExternal := Some (default false (isExternal p));
     UsePrefetch.redirection := Some (default true (redirection p));
     UsePrefetch.disabled := Some (default false (disabled p));
     UsePrefetch.routerContext :=
       match routerContext_of p context with
       | Some rc => Some (NavContext.holder rc)
       | None => None
       end |}.

(** *** Class name, children, ARIA attributes *)

(** The white space [String.prototype.trim] removes, among the code units
    below 256. *)
Definition is_whitespace (c : ascii) : bool :=
  let n := nat_of_ascii c in
  ((n =? 9) || (n =? 10) || (n =? 11) || (n =? 12) || (n =? 13) || (n =? 32)
   || (n =? 160))%nat.

Fixpoint trimStart (s : string) : string :=
  match s with
  | EmptyString => EmptyString
  | String c s' => if is_whitespace c then trimStart s' else s
  end.

Fixpoint trimEnd (s : string) : string :=
  match s with
  | EmptyString => EmptyString
  | String c s' =>
      match trimEnd s' with
      | EmptyString => if is_whitespace c then EmptyString else String c EmptyString
      | rest => String c rest
      end
  end.

Definition trim (s : string) : string := trimEnd (trimStart s).

(** [Array.prototype.join]. *)
Fixpoint join (sep : string) (parts : list string) : string :=
  match parts with
  | [] => ""
  | [s] => s
  | s :: rest => s ++ sep ++ join sep rest
  end.

Definition computedClassName (p : Props) (isActive : bool) : string :=
  let classes :=
    filter (fun s => truthy_string s = true)
      [ default "" (className p);
        if isActive then default "active" (activeClassName p)
        else default "" (inActiveClassName p);
        "pure-nav-link" ] in
  trim (join " " classes).

Definition renderChildren (p : Props) (isActive : bool) : Content :=
  match children p with
  | ChildFunction f => Node (f isActive)
  | ChildComponent type props =>
      Cloned type (<["isActive" := Boolean isActive]> (default ∅ props))
  | ChildNode node => Node node
  end.

Definition computedAria (p : Props) (isActive : bool) : gmap string Value :=
  let ariaAttrs := default ∅ (aria p) in
  let ariaAttrs :=
    if isActive then <["aria-current" := Str "page"]> ariaAttrs else ariaAttrs in
  if default false (disabled p)
  then <["aria-disabled" := Boolean true]> ariaAttrs
  else ariaAttrs.

(** *** The rendered element *)

Definition bool_string (b : bool) : string := if b then "true" else "false".

(** The ten properties [commonProps] names itself. *)
Definition own_props (p : Props) (isActive isPrefetched : bool) : gmap string PropValue :=
  list_to_map
    [ ("id", optional_string (id p));
      ("className", Plain (Str (computedClassName p isActive)));
      ("onClick",
        if String.eqb (default "click" (triggerEvent p)) "click"
        then Own HandleClick else Plain Undefined);
      ("onMouseEnter", Own HandleMouseEnter);
      ("onMouseLeave", Own HandleMouseLeave);
      ("ref", LinkRef);
      ("style",
        if isActive then optional_object (activeStyle p)
        else optional_object (inactiveStyle p));
      ("data-testid", optional_string (testId p));
      ("data-active", Plain (Str (bool_string isActive)));
      ("data-prefetched", Plain (Str (bool_string isPrefetched))) ].

(** [commonProps]: an object literal, so a later property replaces an
    earlier one of the same name; the two spreads, [...computedAria] and
    [...restProps], come last. *)
Definition commonProps (p : Props) (isActive isPrefetched : bool)
  : gmap string PropValue :=
  (Plain <$> restProps p)
  ∪ (Plain <$> computedAria p isActive)
  ∪ own_props p isActive isPrefetched.

Inductive Tag : Type :=
| Custom (component : string)   (* the [as] prop *)
| Span
| Anchor
| RouterLink.                   (* React Router's [Link] *)

Record Element : Type := {
  tag : Tag;
  attrs : gmap string PropValue;
  content : Content
}.

(** The [return] statements of the component, for a non-empty [to].  In JSX a
    later attribute or spread replaces an earlier attribute of the same name. *)
Definition render (p : Props) (isActive isPrefetched : bool) : Element :=
  let redirection := default true (redirection p) in
  let disabled := default false (disabled p) in
  let common := commonProps p isActive isPrefetched in
  let inside := renderChildren p isActive in
  match (match as_ p with
         | Some c => if truthy_string c then Some c else None
         | None => None
         end) with
  | Some c =>
      {| tag := Custom c;
         attrs := (if redirection && negb disabled
                   then {["href" := Plain (Str (to p))]} else ∅) ∪ common;
         content := inside |}
  | None =>
      if negb redirection || disabled then
        {| tag := Span; attrs := common; content := inside |}
      else if default false (isExternal p) then
        {| tag := Anchor;
           attrs := common
                    ∪ list_to_map [ ("href", Plain (Str (to p)));
                                    ("target", Plain (Str "_blank"));
                                    ("rel", Plain (Str "noopener noreferrer")) ];
           content := inside |}
      else
        {| tag := RouterLink;
           attrs := (Plain <$> default ∅ (linkProps p))
                    ∪ common
                    ∪ list_to_map [ ("to", Plain (Str (to p)));
                                    ("replace", Plain (Boolean (default false (replace p)))) ];
           content := inside |}
  end.

End NavPlus.

(* ===================================================================== *)
(** ** src/NavPlus.tsx: the component, its handlers and its timers *)
(* ===================================================================== *)

Module NavPlusHandlers.
Import Prefetch NavPlus.

(** The closure handed to [setTimeout] by [navigateWithDelay]. *)
Record NavTask : Type := {
  task_navigate : NavContext.NavigateFn;
  task_target : string;
  task_replace : bool;
  task_delay : Z
}.

(** What the handlers do besides changing the state, in order. *)
Inductive Happening : Type :=
| PreventDefault                               (* e.preventDefault() *)
| Called (handler : string)                    (* a caller's handler was called *)
| Navigated (target : string) (replace : bool).  (* navigate(target, { replace }) *)

(** The state of one mounted link: the prefetch session of [usePrefetch], the
    navigation timer with the part of the host's timer table it uses (the
    handles of the two refs never meet, each ref only holds what its own
    [setTimeout] returned), and what has happened so far. *)
Record LinkState : Type := {
  prefetchSession : UsePrefetch.Session;
  navigationTimeoutRef : option positive;
  navigationTimers : gmap positive NavTask;
  nextNavigationHandle : positive;
  happened : list Happening
}.

Definition mounted : LinkState :=
  {| prefetchSession := UsePrefetch.mount;
     navigationTimeoutRef := None;
     navigationTimers := ∅;
     nextNavigationHandle := 1%positive;
     happened := [] |}.

Definition record (h : Happening) (st : LinkState) : LinkState :=
  {| prefetchSession := prefetchSession st;
     navigationTimeoutRef := navigationTimeoutRef st;
     navigationTimers := navigationTimers st;
     nextNavigationHandle := nextNavigationHandle st;
     happened := happened st ++ [h] |}.

Definition with_prefetchSession (s : UsePrefetch.Session) (st : LinkState) : LinkState :=
  {| prefetchSession := s;
     navigationTimeoutRef := navigationTimeoutRef st;
     navigationTimers := navigationTimers st;
     nextNavigationHandle := nextNavigationHandle st;
     happened := happened st |}.

(** [if (navigationTimeoutRef.current) clearTimeout(navigationTimeoutRef.current)]. *)
Definition clearNavigationTimeout (st : LinkState) : LinkState :=
  match navigationTimeoutRef st with
  | Some h =>
      {| prefetchSession := prefetchSession st;
         navigationTimeoutRef := navigationTimeoutRef st;
         navigationTimers := delete h (navigationTimers st);
         nextNavigationHandle := nextNavigationHandle st;
         happened := happened st |}
  | None => st
  end.

(** [navigationTimeoutRef.current = setTimeout(task, task_delay)]. *)
Definition armNavigation (task : NavTask) (st : LinkState) : LinkState :=
  {| prefetchSession := prefetchSession st;
     navigationTimeoutRef := Some (nextNavigationHandle st);
     navigationTimers := <[nextNavigationHandle st := task]> (navigationTimers st);
     nextNavigationHandle := Pos.succ (nextNavigationHandle st);
     happened := happened st |}.

(** [navigate(target, { replace })]: the call is recorded, its exception, if
    any, comes out. *)
Definition call_navigate (f : NavContext.NavigateFn) (target : string) (replace : bool)
    (st : LinkState) : LinkState * option JSError :=
  (record (Navigated target replace) st,
   match f target replace with Normal _ => None | Throw e => Some e end).

(** [navigationDelay && navigationDelay > 0]. *)
Definition positive_delay (navigationDelay : option Z) : option Z :=
  match navigationDelay with
  | Some d => if UsePrefetch.truthy_Z d && (0 <? d)%Z then Some d else None
  | None => None
  end.

Definition navigateWithDelay (p : Props) (context : NavContext.NavLinkContextValue)
    (targetUrl : string) (shouldReplace : bool) (st : LinkState)
  : LinkState * option JSError :=
  match navigate_of p context with
  | None => (st, None)
  | Some f =>
      let st := clearNavigationTimeout st in
      match positive_delay (navigationDelay p) with
      | Some d =>
          (armNavigation {| task_navigate := f; task_target := targetUrl;
                            task_replace := shouldReplace; task_delay := d |} st,
           None)
      | None => call_navigate f targetUrl shouldReplace st
      end
  end.

(** How a handler ends: the state it leaves, whether the event's default is
    prevented when it ends, and the exception that came out of it, if any. *)
Record Handled : Type := {
  after : LinkState;
  defaultPrevented : bool;
  thrown : option JSError
}.

(** Calling a caller's handler with the event. *)
Definition call_handler (h : UserHandler) (e : bool) (st : LinkState) : Handled :=
  let st := record (Called (handler_name h)) st in
  match handler_run h with
  | Normal prevented => {| after := st; defaultPrevented := e || prevented; thrown := None |}
  | Throw err => {| after := st; defaultPrevented := e; thrown := Some err |}
  end.

(** [if (f) f(e)] for a value read off the rest props: calling a truthy value
    that is no function is a [TypeError]. *)
Definition call_if_given (v : option Value) (e : bool) (st : LinkState) : Handled :=
  match v with
  | Some (Fn h) => call_handler h e st
  | Some v =>
      if truthy_value v
      then {| after := st; defaultPrevented := e;
              thrown := Some (TypeError "not a function") |}
      else {| after := st; defaultPrevented := e; thrown := None |}
  | None => {| after := st; defaultPrevented := e; thrown := None |}
  end.

(** [handleClick(e)]; [e] is the event's [defaultPrevented] on entry. *)
Definition handleClick (p : Props) (context : NavContext.NavLinkContextValue)
    (e : bool) (st : LinkState) : Handled :=
  if default false (disabled p) then
    {| after := record PreventDefault st; defaultPrevented := true; thrown := None |}
  else
    let clicked :=
      match onClick p with
      | Some h => call_handler h e st
      | None => {| after := st; defaultPrevented := e; thrown := None |}
      end in
    match thrown clicked with
    | Some err => clicked
    | None =>
        if negb (default false (isExternal p)) && default true (redirection p)
           && bool_decide (is_Some (navigate_of p context))
           && negb (defaultPrevented clicked)
        then
          let '(st, err) :=
            navigateWithDelay p context (to p) (default false (replace p))
              (record PreventDefault (after clicked)) in
          {| after := st; defaultPrevented := true; thrown := err |}
        else clicked
    end.

(** [handleMouseEnter(e)]. *)
Definition handleMouseEnter (p : Props) (context : NavContext.NavLinkContextValue)
    (e : bool) (st : LinkState) : Handled :=
  let st :=
    with_prefetchSession
      (UsePrefetch.handlePrefetch (to p) (prefetch_options p context) (prefetchSession st))
      st in
  let hovered :=
    if String.eqb (default "click" (triggerEvent p)) "hover"
       && negb (default false (disabled p)) && default true (redirection p)
       && bool_decide (is_Some (navigate_of p context))
    then
      let '(st, err) :=
        navigateWithDelay p context (to p) (default false (replace p))
          (record PreventDefault st) in
      {| after := st; defaultPrevented := true; thrown := err |}
    else {| after := st; defaultPrevented := e; thrown := None |} in
  match thrown hovered with
  | Some err => hovered
  | None =>
      call_if_given (restProps p !! "onMouseEnter") (defaultPrevented hovered) (after hovered)
  end.

(** [handleMouseLeave(e)]. *)
Definition handleMouseLeave (p : Props) (e : bool) (st : LinkState) : Handled :=
  let st :=
    with_prefetchSession (UsePrefetch.cancelPrefetch (prefetchSession st)) st in
  call_if_given (restProps p !! "onMouseLeave") e st.

(** The warning for a missing [to]; the name of the prop is in double quotes. *)
Definition to_required : string :=
  let quote := String (ascii_of_nat 34) EmptyString in
  "NavPlus: " ++ quote ++ "to" ++ quote ++ " prop is required and should not be empty".

(** The component function: [null] for an empty [to] (with a warning outside
    production), the rendered element otherwise.  An exception of the custom
    active-function comes out of the render. *)
Definition NavPlus (host : Host) (p : Props) (context : NavContext.NavLinkContextValue)
    (st : LinkState) : Eff (option Element) :=
  if negb (truthy_string (to p)) then
    ((if not_production host
      then emit (ConsoleWarn to_required)
      else ret tt) ;;;
     ret None)%eff
  else
    (isActive <- lift (UseIsActive.useIsActive (to p) (isActive_options p context)) ;;
     ret (Some (render p isActive (UsePrefetch.isPrefetched (prefetchSession st)))))%eff.

(** The events the host page delivers to the rendered element. *)
Inductive DomEvent : Type := Click | MouseEnter | MouseLeave.

Definition handler_prop (ev : DomEvent) : string :=
  match ev with
  | Click => "onClick"
  | MouseEnter => "onMouseEnter"
  | MouseLeave => "onMouseLeave"
  end.

(** Delivering an event: the function found in the element's handler prop
    runs; without an element, or without a function there, nothing does. *)
Definition deliver (host : Host) (p : Props) (context : NavContext.NavLinkContextValue)
    (ev : DomEvent) (e : bool) (st : LinkState) : Handled :=
  let nothing := {| after := st; defaultPrevented := e; thrown := None |} in
  match NavPlus host p context st with
  | (_, Normal (Some element)) =>
      match attrs element !! handler_prop ev with
      | Some (Own HandleClick) => handleClick p context e st
      | Some (Own HandleMouseEnter) => handleMouseEnter p context e st
      | Some (Own HandleMouseLeave) => handleMouseLeave p e st
      | Some (Plain (Fn h)) => call_handler h e st
      | _ => nothing
      end
  | _ => nothing
  end.

(** A navigation timer fires: nothing happens unless it is still armed; an
    armed timer leaves the table and navigates. *)
Definition fireNavigation (h : positive) (st : LinkState) : LinkState :=
  match navigationTimers st !! h with
  | Some task =>
      (call_navigate (task_navigate task) (task_target task) (task_replace task)
         {| prefetchSession := prefetchSession st;
            navigationTimeoutRef := navigationTimeoutRef st;
            navigationTimers := delete h (navigationTimers st);
            nextNavigationHandle := nextNavigationHandle st;
            happened := happened st |}).1
  | None => st
  end.

(** The two unmount cleanups: the one of [NavPlus] and the one of
    [usePrefetch]. *)
Definition unmount (st : LinkState) : LinkState :=
  with_prefetchSession (UsePrefetch.unmount (prefetchSession st))
    (clearNavigationTimeout st).

(** What can happen to a mounted link; an event of the page comes with the
    props and the context of the latest render. *)
Inductive LinkEvent : Type :=
| Delivered (p : Props) (context : NavContext.NavLinkContextValue) (ev : DomEvent) (e : bool)
| NavigationTimerFires (h : positive)
| PrefetchTimerFires (h : positive)
| Unmounted.

Definition step (host : Host) (st : LinkState) (ev : LinkEvent) : LinkState :=
  match ev with
  | Delivered p context ev e => after (deliver host p context ev e st)
  | NavigationTimerFires h => fireNavigation h st
  | PrefetchTimerFires h =>
      with_prefetchSession (UsePrefetch.fire host h (prefetchSession st)) st
  | Unmounted => unmount st
  end.

Definition run (host : Host) (st : LinkState) (evs : list LinkEvent) : LinkState :=
  foldl (step host) st evs.

(** The render in which an event was delivered can navigate: the link is
    enabled, redirection is on and a [navigate] function is at hand. *)
Definition can_navigate (p : Props) (context : NavContext.NavLinkContextValue) : bool :=
  negb (default false (disabled p)) && default true (redirection p)
  && bool_decide (is_Some (navigate_of p context)).

Definition is_navigation (h : Happening) : bool :=
  match h with Navigated _ _ => true | _ => false end.



End NavPlusHandlers.

(* ===================================================================== *)
(** ** Further vocabulary for the properties *)
(* ===================================================================== *)

Module Terms.

(** The number of dispatches of a log that returned [true]. *)
Definition successes (log : list UsePrefetch.Dispatch) : nat :=
  length (filter (fun d => UsePrefetch.succeeded d = true) log).

(** The number of hovers among the events of a session. *)
Definition is_hover (ev : UsePrefetch.Event) : bool :=
  match ev with UsePrefetch.HoverEnter _ _ => true | _ => false end.

Definition hovers (evs : list UsePrefetch.Event) : nat :=
  length (filter (fun ev => is_hover ev = true) evs).

(** What [handlePrefetch] guarantees of a task it arms. *)
Definition armed_by_hook (task : UsePrefetch.TimerTask) : Prop :=
  UsePrefetch.task_isExternal task = false
  ∧ UsePrefetch.task_delay task ≠ 0%Z
  ∧ UsePrefetch.task_routerType task ≠ "".

(** An effect that is no console output, or the one warning of the
    ['tanstack-router'] branch. *)
Definition silent_or_warning (e : Effect) : Prop :=
  match e with
  | AppendToHead _ | Invoked _ _ => True
  | ConsoleWarn msg => msg = "TanStack Router prefetch: router instance not found"
  | ConsoleLog _ | ConsoleError _ _ => False
  end.

(** The number of code units of a string. *)
Definition size (s : string) : nat := String.length s.

(** The props of the rendered element that make it a link the user can
    follow: [href], and [to] for React Router's [Link]. *)
Definition destination (el : NavPlus.Element) : option NavPlus.PropValue :=
  match NavPlus.attrs el !! "href" with
  | Some v => Some v
  | None => NavPlus.attrs el !! "to"
  end.

(** The caller's spreads ([restProps], [aria], [linkProps]) do not name the
    prop [k]. *)
Definition not_spread (k : string) (p : NavPlus.Props) : Prop :=
  NavPlus.restProps p !! k = None
  ∧ default ∅ (NavPlus.aria p) !! k = None
  ∧ default ∅ (NavPlus.linkProps p) !! k = None.

(** The link can be followed: redirection is on and the link is not disabled. *)
Definition followable (p : NavPlus.Props) : bool :=
  default true (NavPlus.redirection p) && negb (default false (NavPlus.disabled p)).

(** The navigations among what happened. *)
Definition navigations (log : list NavPlusHandlers.Happening)
  : list NavPlusHandlers.Happening :=
  filter (fun h => NavPlusHandlers.is_navigation h = true) log.

(** From [st] to [st'] nothing happened to navigation: the navigation timer
    and its table are the same, and no navigation was added to the log. *)
Definition no_navigation (st st' : NavPlusHandlers.LinkState) : Prop :=
  NavPlusHandlers.navigationTimeoutRef st' = NavPlusHandlers.navigationTimeoutRef st
  ∧ NavPlusHandlers.navigationTimers st' = NavPlusHandlers.navigationTimers st
  ∧ NavPlusHandlers.nextNavigationHandle st' = NavPlusHandlers.nextNavigationHandle st
  ∧ navigations (NavPlusHandlers.happened st') = navigations (NavPlusHandlers.happened st).

(** The renders of the delivered events of a history all satisfy [ok]. *)
Definition every_render (ok : NavPlus.Props -> NavContext.NavLinkContextValue -> Prop)
    (evs : list NavPlusHandlers.LinkEvent) : Prop :=
  ∀ p context ev e, NavPlusHandlers.Delivered p context ev e ∈ evs → ok p context.

(** The invariant of a link's navigation timer: the table is empty or holds
    the one timer the ref points to. *)
Definition navigation_ok (st : NavPlusHandlers.LinkState) : Prop :=
  NavPlusHandlers.navigationTimers st = ∅
  ∨ ∃ h task, NavPlusHandlers.navigationTimeoutRef st = Some h
              ∧ NavPlusHandlers.navigationTimers st = {[h := task]}.

End Terms.

(* ===================================================================== *)
(** ** Sample links *)
(* ===================================================================== *)

Module NavSamples.
Import NavPlus.

(** A link with the given props and every other prop left out. *)
Definition link (to : string) (disabled isExternal : option bool)
    (triggerEvent : option string) (navigationDelay : option Z)
    (navigate : option NavContext.NavigateFn) (onClick : option UserHandler)
    (restProps : gmap string Value) : Props :=
  {| to := to; children := ChildNode "Home"; location := None; navigate := navigate;
     redirection := None; id := None; inActiveClassName := None; className := None;
     activeClassName := Some ""; onClick := onClick; matchMode := None;
     matchPattern := None; replace := None; isExternal := isExternal; aria := None;
     testId := None; disabled := disabled; activeStyle := None; inactiveStyle := None;
     customActiveUrl := None; linkProps := None; isActiveFunc := None;
     navigationDelay := navigationDelay; triggerEvent := triggerEvent;
     prefetch := Prefetch.PBool true; as_ := None; routerContext := None;
     restProps := restProps |}.

(** A [navigate] function that returns. *)
Definition go : NavContext.NavigateFn := fun _ _ => Normal tt.

(** Handlers of a caller: one that only returns, one that calls
    [e.preventDefault()]. *)
Definition on_event : UserHandler := {| handler_name := "on_event"; handler_run := Normal false |}.

Definition home_link : Props := link "/home" None None None None (Some go) None ∅.
Definition disabled_link : Props := link "/home" (Some true) None None None (Some go) None ∅.
Definition external_link : Props :=
  link "https://example.com" None (Some true) None None None None ∅.
Definition slow_link : Props := link "/home" None None None (Some 300%Z) (Some go) None ∅.
Definition slow_hover_link : Props :=
  link "/home" None None (Some "hover") (Some 300%Z) (Some go) None ∅.
Definition watched_link : Props :=
  link "/home" None None None None (Some go) None {["onMouseEnter" := Fn on_event]}.

(** React Router's hooks inside a router at [/home], and outside any router. *)
Definition inside_router : NavContext.ReactRouterHooks :=
  {| NavContext.useNavigate := Normal go;
     NavContext.useLocation := Normal {| UseIsActive.pathname := "/home" |} |}.

Definition outside_router : NavContext.ReactRouterHooks :=
  {| NavContext.useNavigate := Throw (UserError "useNavigate outside a Router");
     NavContext.useLocation := Throw (UserError "useLocation outside a Router") |}.

Definition bare_provider : NavContext.NavLinkProviderProps :=
  {| NavContext.customMatchers := None;
     NavContext.customPrefetchDefaults := None;
     NavContext.customRouterContext := None;
     NavContext.useReactRouterContext := None |}.

End NavSamples.

(* ===================================================================== *)
(** * Properties *)
(* ===================================================================== *)

(** ** String primitives *)

Lemma append_nil (s : string) : "" ++ s = s.
Proof. reflexivity. Qed.

Lemma append_cons (c : ascii) (s t : string) : String c s ++ t = String c (s ++ t).
Proof. reflexivity. Qed.

Lemma startsWith_begins_with (s t : string) :
  startsWith s t = true ↔ Spec.begins_with s t.
Proof.
  unfold Spec.begins_with. revert s. induction t as [|c t IH]; intros s; simpl.
  - split; [intros _; exists s; apply append_nil | done].
  - destruct s as [|d s].
    + split; [done | intros [rest H]; rewrite append_cons in H; discriminate H].
    + destruct (Ascii.eqb_spec d c) as [->|Hne].
      * rewrite IH. split; intros [rest H]; exists rest.
        -- by rewrite append_cons, H.
        -- rewrite append_cons in H. by injection H.
      * split; [done |].
        intros [rest H]. rewrite append_cons in H. injection H as H1 _. congruence.
Qed.

Lemma includes_contains (s t : string) :
  includes s t = true ↔ Spec.contains s t.
Proof.
  unfold Spec.contains. induction s as [|d s IH]; simpl.
  - rewrite orb_false_r, startsWith_begins_with. split.
    + intros [rest H]. exists "", rest. by rewrite append_nil.
    + intros (before & after & H). destruct before as [|e before].
      * exists after. by rewrite append_nil in H.
      * rewrite append_cons in H. discriminate H.
  - rewrite orb_true_iff, startsWith_begins_with, IH. split.
    + intros [[rest H] | (before & after & H)].
      * exists "", rest. by rewrite append_nil.
      * exists (String d before), after. by rewrite append_cons, H.
    + intros (before & after & H). destruct before as [|e before].
      * left. exists after. by rewrite append_nil in H.
      * right. exists before, after. rewrite append_cons in H. by injection H.
Qed.

(** ** The matcher registry *)

Section Registry.
Import Matchers.

Lemma matchers_exact :
  matchers !! "exact" = Some (fun pathname url _ => String.eqb pathname url).
Proof. reflexivity. Qed.

Lemma matchers_startsWith :
  matchers !! "startsWith" = Some (fun pathname url _ => startsWith pathname url).
Proof. reflexivity. Qed.

Lemma matchers_includes :
  matchers !! "includes" = Some (fun pathname url _ => includes pathname url).
Proof. reflexivity. Qed.

Lemma matchers_pattern :
  matchers !! "pattern" =
  Some (fun pathname url pattern =>
          match pattern with Some p => test p pathname | None => false end).
Proof. reflexivity. Qed.

(** The registry has exactly the four documented entries. *)
Lemma matchers_unknown (mode : string) :
  mode ∉ Spec.known_modes → matchers !! mode = None.
Proof.
  unfold Spec.known_modes. intros Hout.
  unfold matchers. simpl.
  rewrite !lookup_insert_ne, lookup_empty; [done | ..];
    intros <-; apply Hout; set_solver.
Qed.

Lemma isActive_exact pathname url pattern :
  isActive pathname url (Some "exact") pattern = Normal (String.eqb pathname url).
Proof. reflexivity. Qed.

Lemma isActive_startsWith pathname url pattern :
  isActive pathname url (Some "startsWith") pattern = Normal (startsWith pathname url).
Proof. reflexivity. Qed.

Lemma isActive_includes pathname url pattern :
  isActive pathname url (Some "includes") pattern = Normal (includes pathname url).
Proof. reflexivity. Qed.

Lemma isActive_pattern pathname url pattern :
  isActive pathname url (Some "pattern") pattern =
  Normal (match pattern with Some p => test p pathname | None => false end).
Proof. reflexivity. Qed.

Lemma isActive_default pathname url pattern :
  isActive pathname url None pattern = Normal (includes pathname url).
Proof. reflexivity. Qed.

Lemma isActive_unknown pathname url mode pattern :
  mode ∉ Spec.known_modes →
  isActive pathname url (Some mode) pattern = Normal (includes pathname url).
Proof.
  intros Hout. unfold isActive. cbv zeta.
  change (default "includes" (Some mode)) with mode.
  by rewrite (matchers_unknown mode Hout), matchers_includes.
Qed.

Lemma isActive_total pathname url mode pattern :
  ∃ b, isActive pathname url mode pattern = Normal b.
Proof.
  destruct mode as [mode|]; [| by eexists; apply isActive_default].
  unfold isActive. cbv zeta. change (default "includes" (Some mode)) with mode.
  destruct (matchers !! mode) as [f|]; [by eexists |].
  rewrite matchers_includes. by eexists.
Qed.

End Registry.

(** The cases of the repository's test suite for the matchers. *)
Example isActive_tests :
  Matchers.isActive "/home" "/home" (Some "exact") None = Normal true
  ∧ Matchers.isActive "/home/details" "/home" (Some "exact") None = Normal false
  ∧ Matchers.isActive "/home/details" "/home" (Some "startsWith") None = Normal true
  ∧ Matchers.isActive "/dashboard" "/home" (Some "startsWith") None = Normal false
  ∧ Matchers.isActive "/my/home/page" "/home" None None = Normal true
  ∧ Matchers.isActive "/dashboard" "/home" None None = Normal false
  ∧ Matchers.isActive "/products/item-123" "" (Some "pattern") (Some Samples.products_pattern)
    = Normal true
  ∧ Matchers.isActive "/products" "" (Some "pattern") (Some Samples.products_pattern)
    = Normal false
  ∧ Matchers.isActive "/products/item-123/details" "" (Some "pattern")
      (Some Samples.products_pattern) = Normal false
  ∧ Matchers.isActive "/my/home/page" "/home" (Some "invalid") None = Normal true.
Proof. repeat split; reflexivity. Qed.

Example cleanUrl_tests :
  Matchers.cleanUrl (Some "home") = "/home"
  ∧ Matchers.cleanUrl (Some "/home") = "/home"
  ∧ Matchers.cleanUrl (Some "") = "/"
  ∧ Matchers.cleanUrl None = "/".
Proof. repeat split; reflexivity. Qed.

(** ** isActive against its reference definition *)

(** C1.  For every current path, target path, mode and optional pattern,
    [isActive] returns a boolean (it never throws), and that boolean is: string
    equality for ['exact']; "current path begins with target path" for
    ['startsWith']; "current path contains target path" for ['includes'];
    [pattern.test(currentPath)] for ['pattern'] with a pattern and [false]
    without one; and for every other mode value (an omitted mode included) the
    result of [isActive] with mode ['includes']. *)
Theorem isActive_matches_reference
    (currentPath targetPath : string) (mode : option string) (pattern : option RegExp) :
  ∃ b : bool,
    Matchers.isActive currentPath targetPath mode pattern = Normal b
    ∧ (mode = Some "exact" → (b = true ↔ currentPath = targetPath))
    ∧ (mode = Some "startsWith" → (b = true ↔ Spec.begins_with currentPath targetPath))
    ∧ (mode = Some "includes" → (b = true ↔ Spec.contains currentPath targetPath))
    ∧ (mode = Some "pattern" →
       b = match pattern with Some p => test p currentPath | None => false end)
    ∧ ((∀ m, mode = Some m → m ∉ Spec.known_modes) →
       Matchers.isActive currentPath targetPath mode pattern
       = Matchers.isActive currentPath targetPath (Some "includes") pattern).
Proof.
  destruct (isActive_total currentPath targetPath mode pattern) as [b Hb].
  exists b. split_and!.
  - exact Hb.
  - intros ->. rewrite isActive_exact in Hb. injection Hb as <-. apply String.eqb_eq.
  - intros ->. rewrite isActive_startsWith in Hb. injection Hb as <-.
    apply startsWith_begins_with.
  - intros ->. rewrite isActive_includes in Hb. injection Hb as <-.
    apply includes_contains.
  - intros ->. rewrite isActive_pattern in Hb. by injection Hb as <-.
  - intros Hout. destruct mode as [m|].
    + rewrite (isActive_unknown _ _ m) by (by apply Hout). by rewrite isActive_includes.
    + by rewrite isActive_default, isActive_includes.
Qed.

Lemma invalid_is_unknown : "invalid" ∉ Spec.known_modes.
Proof.
  unfold Spec.known_modes. intros Hin.
  repeat (apply elem_of_cons in Hin as [Hin|Hin]; [discriminate Hin |]).
  by apply elem_of_nil in Hin.
Defined.

Lemma isActive_matches_reference_witness :
  Matchers.isActive "/my/home/page" "/home" (Some "invalid") None
  = Matchers.isActive "/my/home/page" "/home" (Some "includes") None.
Proof.
  destruct (isActive_matches_reference "/my/home/page" "/home" (Some "invalid") None)
    as (b & _ & _ & _ & _ & _ & Hfallback).
  apply Hfallback. intros m Hm. injection Hm as <-. exact invalid_is_unknown.
Defined.

(** ** The composite active-state decision *)

Section Composite.
Import Matchers UseIsActive.

Lemma or_string_effective (to : string) (custom : option string) (target : string) :
  Spec.effective_target to custom target → or_string custom to = target.
Proof.
  intros [u Hu | |]; simpl; [| done | done].
  destruct u; [done | reflexivity].
Qed.

Lemma truthy_string_nonempty (s : string) : truthy_string s = true ↔ s ≠ "".
Proof. destruct s; simpl; split; congruence. Qed.

(** C8 (as amended).  When no current path is available (no [location], or an
    empty [pathname]) the link is inactive and nothing is thrown.  Otherwise a
    custom predicate, when present, alone decides the result, whatever the
    match mode and pattern; without one, [isActive] is called.  In both cases
    the target path handed over is [customActiveUrl] when it is supplied and
    not the empty string, and [to] otherwise. *)
Theorem useIsActive_decision (to : string) (options : Options) :
  (location options = None → useIsActive to options = Normal false)
  ∧ (∀ loc, location options = Some loc → pathname loc = "" →
       useIsActive to options = Normal false)
  ∧ (∀ loc target f,
       location options = Some loc → pathname loc ≠ "" →
       Spec.effective_target to (customActiveUrl options) target →
       isActiveFunc options = Some f →
       useIsActive to options = f (pathname loc) target)
  ∧ (∀ loc target,
       location options = Some loc → pathname loc ≠ "" →
       Spec.effective_target to (customActiveUrl options) target →
       isActiveFunc options = None →
       useIsActive to options
       = isActive (pathname loc) target (Some (default "includes" (matchMode options)))
           (matchPattern options)).
Proof.
  unfold useIsActive. split_and!.
  - by intros ->.
  - intros loc -> ->. done.
  - intros loc target f -> Hpath Htarget ->.
    apply truthy_string_nonempty in Hpath. rewrite Hpath. simpl.
    by rewrite (or_string_effective _ _ _ Htarget).
  - intros loc target -> Hpath Htarget ->.
    apply truthy_string_nonempty in Hpath. rewrite Hpath. simpl.
    by rewrite (or_string_effective _ _ _ Htarget).
Qed.

End Composite.

(** C8, as first stated, at [customActiveUrl = ''] with mode ['exact']: the
    hook compares the current path with [to] and answers [true], where
    [isActive] on the supplied [customActiveUrl] answers [false]. *)
Lemma useIsActive_empty_customActiveUrl :
  UseIsActive.useIsActive "/home"
    {| UseIsActive.location := Some {| UseIsActive.pathname := "/home" |};
       UseIsActive.matchMode := Some "exact";
       UseIsActive.matchPattern := None;
       UseIsActive.customActiveUrl := Some "";
       UseIsActive.isActiveFunc := None |}
  = Normal true
  ∧ Matchers.isActive "/home" "" (Some "exact") None = Normal false.
Proof. split; reflexivity. Qed.

Lemma useIsActive_decision_witness :
  UseIsActive.useIsActive "/home"
    {| UseIsActive.location := Some {| UseIsActive.pathname := "/dashboard/settings" |};
       UseIsActive.matchMode := Some "exact";
       UseIsActive.matchPattern := None;
       UseIsActive.customActiveUrl := Some "/dashboard";
       UseIsActive.isActiveFunc := Some Samples.always_active |}
  = Normal true.
Proof.
  destruct (useIsActive_decision "/home"
    {| UseIsActive.location := Some {| UseIsActive.pathname := "/dashboard/settings" |};
       UseIsActive.matchMode := Some "exact";
       UseIsActive.matchPattern := None;
       UseIsActive.customActiveUrl := Some "/dashboard";
       UseIsActive.isActiveFunc := Some Samples.always_active |})
    as (_ & _ & Hcustom & _).
  apply (Hcustom {| UseIsActive.pathname := "/dashboard/settings" |} "/dashboard"
           Samples.always_active).
  - reflexivity.
  - discriminate.
  - apply Spec.target_custom. discriminate.
  - reflexivity.
Defined.

(** ** normalizePrefetchOptions *)

Section Normalize.
Import Prefetch.

(** C7.  [normalizePrefetchOptions] builds its result over the defaults
    [{enabled: true, delay: 200, routerType: 'react-router'}]: a boolean
    overrides [enabled] only; an object is shallow-merged over the defaults,
    property by property, so that a property the object lacks keeps its
    default; [undefined] gives the defaults; and in every case [enabled],
    [delay] and [routerType] are properties of the result. *)
Theorem normalizePrefetchOptions_over_defaults :
  defaultPrefetchOptions
  = {| enabled := Present (Some true); delay := Present (Some 200%Z);
       routerType := Present (Some "react-router"); customPrefetch := Absent |}
  ∧ (∀ b : bool,
       normalizePrefetchOptions (PBool b)
       = {| enabled := Present (Some b);
            delay := delay defaultPrefetchOptions;
            routerType := routerType defaultPrefetchOptions;
            customPrefetch := customPrefetch defaultPrefetchOptions |})
  ∧ (∀ o : PrefetchOptions,
       let r := normalizePrefetchOptions (PObject o) in
       Spec.merged (enabled defaultPrefetchOptions) (enabled o) (enabled r)
       ∧ Spec.merged (delay defaultPrefetchOptions) (delay o) (delay r)
       ∧ Spec.merged (routerType defaultPrefetchOptions) (routerType o) (routerType r)
       ∧ Spec.merged (customPrefetch defaultPrefetchOptions) (customPrefetch o)
           (customPrefetch r))
  ∧ normalizePrefetchOptions PUndefined = defaultPrefetchOptions
  ∧ (∀ p : PrefetchProp,
       let r := normalizePrefetchOptions p in
       Spec.present (enabled r) ∧ Spec.present (delay r) ∧ Spec.present (routerType r)).
Proof.
  split_and!.
  - reflexivity.
  - reflexivity.
  - intros o r. subst r. unfold Spec.merged. simpl.
    destruct (enabled o), (delay o), (routerType o), (customPrefetch o); done.
  - reflexivity.
  - intros [b | o |] r; subst r; simpl; [done | | done].
    destruct (enabled o), (delay o), (routerType o); done.
Qed.

End Normalize.

(** The cases of the repository's test suite for [normalizePrefetchOptions]. *)
Example normalizePrefetchOptions_tests :
  Prefetch.normalizePrefetchOptions (Prefetch.PBool true) = Prefetch.defaultPrefetchOptions
  ∧ Prefetch.get (Prefetch.enabled (Prefetch.normalizePrefetchOptions (Prefetch.PBool false)))
    = Some false
  ∧ Prefetch.normalizePrefetchOptions
      (Prefetch.PObject
         {| Prefetch.enabled := Prefetch.Absent;
            Prefetch.delay := Prefetch.Present (Some 100%Z);
            Prefetch.routerType := Prefetch.Present (Some "tanstack-router");
            Prefetch.customPrefetch := Prefetch.Absent |})
    = {| Prefetch.enabled := Prefetch.Present (Some true);
         Prefetch.delay := Prefetch.Present (Some 100%Z);
         Prefetch.routerType := Prefetch.Present (Some "tanstack-router");
         Prefetch.customPrefetch := Prefetch.Absent |}.
Proof. repeat split; reflexivity. Qed.

(** ** executePrefetch *)

Section Execute.
Import Prefetch.

(** C4.  With [isExternal = true], whatever the strategy, the router
    context, the custom callback and the host, [executePrefetch] returns
    [false] at once: it leaves no effect at all, so it registers no hint and
    calls no callback. *)
Theorem executePrefetch_external (host : Host) (url routerType : string)
    (routerContext : option RouterHolder) (customPrefetch : option Callback) :
  executePrefetch host url routerType true routerContext customPrefetch = ([], Normal false)
  ∧ hints (executePrefetch host url routerType true routerContext customPrefetch).1 = []
  ∧ calls (executePrefetch host url routerType true routerContext customPrefetch).1 = [].
Proof. split_and!; reflexivity. Qed.

Lemma hints_app (tr1 tr2 : list Effect) : hints (tr1 ++ tr2)%list = (hints tr1 ++ hints tr2)%list.
Proof.
  induction tr1 as [|e tr1 IH]; [done |].
  destruct e; simpl; by rewrite IH.
Qed.

Lemma calls_app (tr1 tr2 : list Effect) : calls (tr1 ++ tr2)%list = (calls tr1 ++ calls tr2)%list.
Proof.
  induction tr1 as [|e tr1 IH]; [done |].
  destruct e; simpl; by rewrite IH.
Qed.

Lemma hints_success_report host url routerType :
  hints (Spec.success_report host url routerType) = [].
Proof. unfold Spec.success_report. by destruct (not_production host). Qed.

Lemma calls_success_report host url routerType :
  calls (Spec.success_report host url routerType) = [].
Proof. unfold Spec.success_report. by destruct (not_production host). Qed.

Lemma hints_error_report host url e : hints (Spec.error_report host url e) = [].
Proof. unfold Spec.error_report. by destruct (not_production host). Qed.

Lemma calls_error_report host url e : calls (Spec.error_report host url e) = [].
Proof. unfold Spec.error_report. by destruct (not_production host). Qed.

(** The run of the ['react-router'] branch, by the outcome of [new URL]. *)
Lemma executePrefetch_react_router host url routerContext customPrefetch :
  executePrefetch host url "react-router" false routerContext customPrefetch
  = match URL_origin host url (location_origin host) with
    | Normal origin =>
        (AppendToHead (prefetch_hint url) :: AppendToHead (preconnect_hint origin)
           :: Spec.success_report host url "react-router", Normal true)
    | Throw e =>
        (AppendToHead (prefetch_hint url) :: Spec.error_report host url e, Normal false)
    end.
Proof.
  unfold executePrefetch, switch_routerType, Spec.success_report, Spec.error_report. simpl.
  destruct (URL_origin host url (location_origin host)) as [origin|e]; simpl;
    by destruct (not_production host).
Qed.

Lemma executePrefetch_tanstack_context host url routerContext customPrefetch f :
  router_prefetch routerContext = Some f →
  executePrefetch host url "tanstack-router" false routerContext customPrefetch
  = Spec.capability_run host ContextRouterPrefetch f url.
Proof.
  intros Hf.
  unfold executePrefetch, switch_routerType, Spec.capability_run, call, Spec.success_report,
    Spec.error_report.
  simpl. rewrite Hf. simpl.
  destruct (f url) as [[]|e]; simpl; by destruct (not_production host).
Qed.

Lemma executePrefetch_tanstack_global host url routerContext customPrefetch g :
  router_prefetch routerContext = None →
  router_prefetch (TanStackRouter host) = Some g →
  executePrefetch host url "tanstack-router" false routerContext customPrefetch
  = Spec.capability_run host GlobalRouterPrefetch g url.
Proof.
  intros Hf Hg.
  unfold executePrefetch, switch_routerType, Spec.capability_run, call, Spec.success_report,
    Spec.error_report.
  simpl. rewrite Hf, Hg. simpl.
  destruct (g url) as [[]|e]; simpl; by destruct (not_production host).
Qed.

Lemma executePrefetch_tanstack_missing host url routerContext customPrefetch :
  router_prefetch routerContext = None →
  router_prefetch (TanStackRouter host) = None →
  executePrefetch host url "tanstack-router" false routerContext customPrefetch
  = ([ConsoleWarn "TanStack Router prefetch: router instance not found"], Normal false).
Proof.
  intros Hf Hg. unfold executePrefetch, switch_routerType. simpl. by rewrite Hf, Hg.
Qed.

End Execute.

Section Strategies.
Import Prefetch.

(** C5 (as amended).  On a non-external target whose URL resolves against the
    page's origin ([new URL(url, window.location.origin)] does not throw),
    [executePrefetch] with strategy ['react-router'] registers exactly two
    hints, in this order: a [rel='prefetch'] link to the target with
    [as='document'], and a [rel='preconnect'] link to the target's origin; it
    calls no callback and returns [true]. *)
Theorem executePrefetch_react_router_two_hints (host : Host) (url origin : string)
    (routerContext : option RouterHolder) (customPrefetch : option Callback) :
  URL_origin host url (location_origin host) = Normal origin →
  let r := executePrefetch host url "react-router" false routerContext customPrefetch in
  r.2 = Normal true
  ∧ hints r.1 = [ {| rel := "prefetch"; href := url; as_ := "document" |};
                  {| rel := "preconnect"; href := origin; as_ := "" |} ]
  ∧ calls r.1 = [].
Proof.
  intros Horigin r. subst r. rewrite executePrefetch_react_router, Horigin. simpl.
  by rewrite hints_success_report, calls_success_report.
Qed.

Lemma executePrefetch_react_router_two_hints_witness :
  let r := executePrefetch Samples.dev_host "/dashboard" "react-router" false None None in
  r.2 = Normal true
  ∧ hints r.1 = [ {| rel := "prefetch"; href := "/dashboard"; as_ := "document" |};
                  {| rel := "preconnect"; href := "http://localhost"; as_ := "" |} ]
  ∧ calls r.1 = [].
Proof.
  apply (executePrefetch_react_router_two_hints Samples.dev_host "/dashboard"
           "http://localhost" None None).
  reflexivity.
Defined.

(** C5, as first stated, at the target ["http://"]: the URL has no host, [new
    URL] throws after the first hint is appended, and the call returns [false]
    with a single hint registered. *)
Lemma executePrefetch_react_router_invalid_url :
  let r := executePrefetch Samples.dev_host "http://" "react-router" false None None in
  r.2 = Normal false
  ∧ hints r.1 = [ {| rel := "prefetch"; href := "http://"; as_ := "document" |} ].
Proof. split; reflexivity. Qed.

(** C6 (as amended).  On a non-external target with strategy
    ['tanstack-router']: when [routerContext.router.prefetch] exists it is the
    one function called, once, with the target, no hint is registered, and the
    result is [true] if that call returns normally; when it is absent and
    [window.TanStackRouter.router.prefetch] exists, the same holds of that
    function; when neither exists, nothing is called, no hint is registered, a
    warning is written and the result is [false]. *)
Theorem executePrefetch_tanstack (host : Host) (url : string)
    (routerContext : option RouterHolder) (customPrefetch : option Callback) :
  let r := executePrefetch host url "tanstack-router" false routerContext customPrefetch in
  (∀ f, router_prefetch routerContext = Some f →
        calls r.1 = [(ContextRouterPrefetch, url)] ∧ hints r.1 = []
        ∧ (f url = Normal tt → r.2 = Normal true))
  ∧ (∀ g, router_prefetch routerContext = None →
          router_prefetch (TanStackRouter host) = Some g →
          calls r.1 = [(GlobalRouterPrefetch, url)] ∧ hints r.1 = []
          ∧ (g url = Normal tt → r.2 = Normal true))
  ∧ (router_prefetch routerContext = None →
     router_prefetch (TanStackRouter host) = None →
     calls r.1 = [] ∧ hints r.1 = []
     ∧ filter is_warning r.1
       = [ConsoleWarn "TanStack Router prefetch: router instance not found"]
     ∧ r.2 = Normal false).
Proof.
  intros r. subst r. split_and!.
  - intros f Hf. rewrite (executePrefetch_tanstack_context _ _ _ _ f Hf).
    unfold Spec.capability_run. destruct (f url) as [[]|e]; simpl.
    + by rewrite calls_success_report, hints_success_report.
    + by rewrite calls_error_report, hints_error_report.
  - intros g Hf Hg. rewrite (executePrefetch_tanstack_global _ _ _ _ g Hf Hg).
    unfold Spec.capability_run. destruct (g url) as [[]|e]; simpl.
    + by rewrite calls_success_report, hints_success_report.
    + by rewrite calls_error_report, hints_error_report.
  - intros Hf Hg. by rewrite (executePrefetch_tanstack_missing _ _ _ _ Hf Hg).
Qed.

Lemma executePrefetch_tanstack_witness :
  let r := executePrefetch Samples.dev_host "/dashboard" "tanstack-router" false
             (Samples.context_with Samples.quiet_callback) None in
  calls r.1 = [(ContextRouterPrefetch, "/dashboard")] ∧ hints r.1 = [] ∧ r.2 = Normal true.
Proof.
  destruct (executePrefetch_tanstack Samples.dev_host "/dashboard"
              (Samples.context_with Samples.quiet_callback) None) as (Hctx & _ & _).
  destruct (Hctx Samples.quiet_callback eq_refl) as (Hcalls & Hhints & Hok).
  split_and!; [exact Hcalls | exact Hhints | exact (Hok eq_refl)].
Defined.

(** C6, as first stated, at a [routerContext.router.prefetch] that throws: it
    is present and is called with the target, yet the call returns [false]. *)
Lemma executePrefetch_tanstack_failing_capability :
  let r := executePrefetch Samples.dev_host "/dashboard" "tanstack-router" false
             (Samples.context_with Samples.failing_callback) None in
  router_prefetch (Samples.context_with Samples.failing_callback)
  = Some Samples.failing_callback
  ∧ calls r.1 = [(ContextRouterPrefetch, "/dashboard")]
  ∧ r.2 = Normal false.
Proof. split_and!; reflexivity. Qed.

(** C10.  With strategy ['custom'] and no custom callback, on a non-external
    target, the guard of the custom branch fails and the [switch] takes its
    [default] case (the one any unknown strategy takes): exactly one hint is
    registered, the [rel='prefetch'] link to the target with [as='document'],
    nothing is called, and the result is [true]. *)
Theorem executePrefetch_custom_without_callback (host : Host) (url : string)
    (routerContext : option RouterHolder) :
  let r := executePrefetch host url "custom" false routerContext None in
  r.2 = Normal true
  ∧ hints r.1 = [ {| rel := "prefetch"; href := url; as_ := "document" |} ]
  ∧ calls r.1 = []
  ∧ switch_routerType host url "custom" routerContext
    = switch_routerType host url "some-unknown-router" routerContext.
Proof.
  intros r. subst r. unfold executePrefetch, switch_routerType. simpl.
  by destruct (not_production host).
Qed.

End Strategies.

(** ** Exceptions *)

Section Exceptions.
Import Prefetch.

Lemma executePrefetch_custom host url routerContext f :
  executePrefetch host url "custom" false routerContext (Some f)
  = ([Invoked CustomPrefetch url],
     match f url with Normal _ => Normal true | Throw e => Throw e end).
Proof.
  unfold executePrefetch, call. simpl. by destruct (f url) as [[]|e].
Qed.

(** Outside the custom branch [executePrefetch] always completes normally. *)
Lemma executePrefetch_catches host url routerType routerContext customPrefetch :
  (routerType = "custom" → customPrefetch = None) →
  ∃ b, (executePrefetch host url routerType false routerContext customPrefetch).2 = Normal b.
Proof.
  intros Hguard. unfold executePrefetch.
  assert ((if String.eqb routerType "custom" then customPrefetch else None) = None) as ->.
  { destruct (String.eqb_spec routerType "custom") as [Heq|]; [by apply Hguard | done]. }
  destruct (switch_routerType host url routerType routerContext) as [tr [[b|]|e]];
    simpl; destruct (not_production host); simpl; by eexists.
Qed.

(** C9 (as amended).  An exception of a caller-supplied function is not
    caught: one thrown by the custom predicate comes out of
    [isActiveWithCustomFn], and one thrown by the custom prefetch callback
    comes out of the custom branch of [executePrefetch].  In every other
    branch [executePrefetch] never throws: an exception of hint creation
    ([new URL] in the ['react-router'] branch) or of the router capability
    (from the context or the global one, in the ['tanstack-router'] branch) is
    caught and turned into the result [false], and it is reported with
    [console.error] unless [process.env.NODE_ENV] is ['production']. *)
Theorem exceptions_of_callers_and_of_strategies :
  (∀ pathname url (f : Matchers.ActiveFn) e,
     f pathname url = Throw e → Matchers.isActiveWithCustomFn pathname url f = Throw e)
  ∧ (∀ host url routerContext (f : Callback) e,
       f url = Throw e →
       (executePrefetch host url "custom" false routerContext (Some f)).2 = Throw e)
  ∧ (∀ host url routerType routerContext customPrefetch,
       (routerType = "custom" → customPrefetch = None) →
       ∃ b, (executePrefetch host url routerType false routerContext customPrefetch).2
            = Normal b)
  ∧ (∀ host url routerContext customPrefetch e,
       URL_origin host url (location_origin host) = Throw e →
       executePrefetch host url "react-router" false routerContext customPrefetch
       = (AppendToHead (prefetch_hint url) :: Spec.error_report host url e, Normal false))
  ∧ (∀ host url routerContext customPrefetch f e,
       router_prefetch routerContext = Some f → f url = Throw e →
       executePrefetch host url "tanstack-router" false routerContext customPrefetch
       = (Invoked ContextRouterPrefetch url :: Spec.error_report host url e, Normal false))
  ∧ (∀ host url routerContext customPrefetch g e,
       router_prefetch routerContext = None →
       router_prefetch (TanStackRouter host) = Some g → g url = Throw e →
       executePrefetch host url "tanstack-router" false routerContext customPrefetch
       = (Invoked GlobalRouterPrefetch url :: Spec.error_report host url e, Normal false))
  ∧ (∀ host url e,
       Spec.error_report host url e
       = if not_production host
         then [ConsoleError ("Error prefetching " ++ url ++ ":") e] else []).
Proof.
  split_and!.
  - intros pathname url f e Hf. exact Hf.
  - intros host url routerContext f e Hf. by rewrite executePrefetch_custom, Hf.
  - apply executePrefetch_catches.
  - intros host url routerContext customPrefetch e He.
    by rewrite executePrefetch_react_router, He.
  - intros host url routerContext customPrefetch f e Hf He.
    rewrite (executePrefetch_tanstack_context _ _ _ _ f Hf).
    unfold Spec.capability_run. by rewrite He.
  - intros host url routerContext customPrefetch g e Hf Hg He.
    rewrite (executePrefetch_tanstack_global _ _ _ _ g Hf Hg).
    unfold Spec.capability_run. by rewrite He.
  - reflexivity.
Qed.

Lemma exceptions_of_callers_and_of_strategies_witness :
  Matchers.isActiveWithCustomFn "/home" "/home" Samples.failing_active
  = Throw (UserError "isActiveFunc failed")
  ∧ (executePrefetch Samples.dev_host "/dashboard" "custom" false None
       (Some Samples.failing_callback)).2
    = Throw (UserError "prefetch failed")
  ∧ executePrefetch Samples.dev_host "/dashboard" "tanstack-router" false
      (Samples.context_with Samples.failing_callback) None
    = ([Invoked ContextRouterPrefetch "/dashboard";
        ConsoleError "Error prefetching /dashboard:" (UserError "prefetch failed")],
       Normal false).
Proof.
  destruct exceptions_of_callers_and_of_strategies
    as (Hactive & Hcustom & _ & _ & Hcontext & _ & _).
  split_and!.
  - apply Hactive. reflexivity.
  - apply Hcustom. reflexivity.
  - apply (Hcontext Samples.dev_host "/dashboard" _ None Samples.failing_callback);
      reflexivity.
Defined.

(** C9, as first stated, in a production build: the exception of the router
    capability is caught and turned into [false], but nothing is written to
    the console. *)
Lemma executePrefetch_production_not_logged :
  executePrefetch Samples.production_host "/dashboard" "tanstack-router" false
    (Samples.context_with Samples.failing_callback) None
  = ([Invoked ContextRouterPrefetch "/dashboard"], Normal false).
Proof. reflexivity. Qed.

End Exceptions.

(** ** The prefetch session *)

Section SessionInvariant.
Import Prefetch UsePrefetch.
Variable host : Host.

Lemma run_app (s : Session) (evs1 evs2 : list Event) :
  run host s (evs1 ++ evs2)%list = run host (run host s evs1) evs2.
Proof. apply foldl_app. Qed.

Lemma run_cons (s : Session) (ev : Event) (evs : list Event) :
  run host s (ev :: evs) = run host (step host s ev) evs.
Proof. reflexivity. Qed.

Lemma mount_ok : Spec.session_ok mount.
Proof.
  split; simpl.
  - by left.
  - done.
  - split; [done |]. intros (d & Hd & _). by apply elem_of_nil in Hd.
  - intros h [task Hh]. by rewrite lookup_empty in Hh.
Qed.

(** Clearing the timer of the ref leaves no timer armed. *)
Lemma clear_pending_timers (s : Session) :
  Spec.session_ok s → timers (clear_pending s) = ∅.
Proof.
  intros Hok. unfold clear_pending.
  destruct (Spec.ok_single s Hok) as [Hempty | (h & task & Href & Hone)].
  - destruct (prefetchTimeoutRef s); simpl; rewrite Hempty; [apply delete_empty | done].
  - rewrite Href. simpl. rewrite Hone. apply delete_singleton_eq.
Qed.

Lemma clear_pending_fields (s : Session) :
  isPrefetched (clear_pending s) = isPrefetched s
  ∧ dispatches (clear_pending s) = dispatches s
  ∧ next_handle (clear_pending s) = next_handle s
  ∧ prefetchTimeoutRef (clear_pending s) = prefetchTimeoutRef s.
Proof.
  unfold clear_pending. destruct (prefetchTimeoutRef s) as [h|] eqn:Href; simpl; [| done].
  by rewrite Href.
Qed.

Lemma clear_pending_ok (s : Session) :
  Spec.session_ok s → Spec.session_ok (clear_pending s).
Proof.
  intros Hok. pose proof (clear_pending_timers s Hok) as Hempty.
  destruct (clear_pending_fields s) as (Hflag & Hlog & Hnext & Href).
  split.
  - by left.
  - done.
  - rewrite Hflag, Hlog. apply (Spec.ok_flag s Hok).
  - intros h [task Hh]. by rewrite Hempty, lookup_empty in Hh.
Qed.

(** What [handlePrefetch] does when its guard lets it through. *)
Lemma handlePrefetch_cases (to : string) (options : Options) (s : Session) :
  handlePrefetch to options s = s
  ∨ (isPrefetched s = false
     ∧ ∃ task, handlePrefetch to options s = arm task (clear_pending s)).
Proof.
  unfold handlePrefetch.
  destruct (negb _ || _ || _ || _ || isPrefetched s) eqn:Hguard; [by left |].
  right. split; [| by eexists].
  apply orb_false_iff in Hguard. apply Hguard.
Qed.

Lemma handlePrefetch_let_through (to : string) (options : Options) (s : Session) :
  Spec.let_through options s →
  ∃ task, task_to task = to ∧ handlePrefetch to options s = arm task (clear_pending s).
Proof.
  intros (Hon & Hext & Hredir & Hdis & Hflag). unfold handlePrefetch.
  rewrite Hon, Hflag. simpl.
  destruct (isExternal options) as [[]|]; try congruence;
    destruct (redirection options) as [[]|]; try congruence;
    destruct (disabled options) as [[]|]; try congruence;
    simpl; (eexists; split; [| reflexivity]; reflexivity).
Qed.

Lemma arm_ok (task : TimerTask) (s : Session) :
  Spec.session_ok s → timers s = ∅ → isPrefetched s = false →
  Spec.session_ok (arm task s).
Proof.
  intros Hok Hempty Hflag. split; simpl.
  - right. exists (next_handle s), task. by rewrite Hempty, insert_empty.
  - congruence.
  - apply (Spec.ok_flag s Hok).
  - intros h [task' Hh]. rewrite Hempty, insert_empty in Hh.
    apply lookup_singleton_Some in Hh as [<- _]. lia.
Qed.

Lemma handlePrefetch_ok (to : string) (options : Options) (s : Session) :
  Spec.session_ok s → Spec.session_ok (handlePrefetch to options s).
Proof.
  intros Hok.
  destruct (handlePrefetch_cases to options s) as [-> | (Hflag & task & ->)]; [done |].
  apply arm_ok.
  - by apply clear_pending_ok.
  - by apply clear_pending_timers.
  - by destruct (clear_pending_fields s) as (-> & _).
Qed.

(** A timer that fires was the only one armed. *)
Lemma fire_cases (h : positive) (s : Session) :
  Spec.session_ok s →
  fire host h s = s
  ∨ (isPrefetched s = false
     ∧ ∃ task, timers s = {[h := task]} ∧ fire host h s = run_task host task (clearTimeout h s)).
Proof.
  intros Hok. unfold fire. destruct (timers s !! h) as [task|] eqn:Hh; [| by left].
  right. split.
  - destruct (isPrefetched s) eqn:Hflag; [| done].
    by rewrite (Spec.ok_done s Hok Hflag), lookup_empty in Hh.
  - exists task. split; [| done].
    destruct (Spec.ok_single s Hok) as [Hempty | (h' & task' & _ & Hone)].
    + by rewrite Hempty, lookup_empty in Hh.
    + rewrite Hone in Hh. apply lookup_singleton_Some in Hh as [-> ->]. exact Hone.
Qed.

Lemma run_task_fields (task : TimerTask) (s : Session) :
  timers (run_task host task s) = timers s
  ∧ next_handle (run_task host task s) = next_handle s
  ∧ prefetchTimeoutRef (run_task host task s) = prefetchTimeoutRef s
  ∧ ∃ d, dispatches (run_task host task s) = (dispatches s ++ [d])%list
         ∧ dispatch_task d = task
         ∧ isPrefetched (run_task host task s) = (succeeded d || isPrefetched s).
Proof.
  unfold run_task.
  destruct (executePrefetch _ _ _ _ _ _) as [effects success]. simpl.
  split_and!; try done. eexists. split_and!; try done.
  unfold succeeded. simpl. by destruct success as [[]|].
Qed.

Lemma fire_ok (h : positive) (s : Session) :
  Spec.session_ok s → Spec.session_ok (fire host h s).
Proof.
  intros Hok.
  destruct (fire_cases h s Hok) as [-> | (Hflag & task & Hone & ->)]; [done |].
  destruct (run_task_fields task (clearTimeout h s))
    as (Htimers & Hnext & Href & d & Hlog & _ & Hflag').
  simpl in *. rewrite Hone, delete_singleton_eq in Htimers.
  split.
  - by left.
  - done.
  - rewrite Hflag', Hlog, Hflag, orb_false_r. split.
    + intros Hd. exists d. split; [| done]. apply elem_of_app. right. by apply list_elem_of_singleton.
    + intros (d' & Hd' & Hsucc). apply elem_of_app in Hd' as [Hold | Hnew].
      * assert (isPrefetched s = true) as Hcontra by (apply (Spec.ok_flag s Hok); eauto).
        congruence.
      * apply list_elem_of_singleton in Hnew. by subst d'.
  - intros h' [task' Hh']. by rewrite Htimers, lookup_empty in Hh'.
Qed.

Lemma step_ok (s : Session) (ev : Event) :
  Spec.session_ok s → Spec.session_ok (step host s ev).
Proof.
  intros Hok. destruct ev as [to options | | | h]; simpl.
  - by apply handlePrefetch_ok.
  - by apply clear_pending_ok.
  - by apply clear_pending_ok.
  - by apply fire_ok.
Qed.

Lemma run_ok (evs : list Event) (s : Session) :
  Spec.session_ok s → Spec.session_ok (run host s evs).
Proof.
  revert s. induction evs as [|ev evs IH]; intros s Hok; [done |].
  rewrite run_cons. apply IH. by apply step_ok.
Qed.

Lemma session_reachable_ok (evs : list Event) : Spec.session_ok (run host mount evs).
Proof. apply run_ok, mount_ok. Qed.

End SessionInvariant.

Section SessionProperties.
Import Prefetch UsePrefetch.
Variable host : Host.

Lemma succeeded_result (d : Dispatch) :
  succeeded d = true ↔ dispatch_result d = Normal true.
Proof.
  unfold succeeded. destruct (dispatch_result d) as [[]|]; split; congruence.
Qed.

(** With no timer armed, cancelling changes nothing. *)
Lemma clear_pending_idle (s : Session) : timers s = ∅ → clear_pending s = s.
Proof.
  intros Hempty. unfold clear_pending, clearTimeout.
  destruct s as [flag ref table next log]. simpl in *. subst table.
  destruct ref; [| done]. by rewrite delete_empty.
Qed.

Lemma run_fires_cons (h : positive) (hs : list positive) (s : Session) :
  run host s (map TimerFires (h :: hs)) = run host (fire host h s) (map TimerFires hs).
Proof. reflexivity. Qed.

(** With no timer armed, the host has nothing to fire. *)
Lemma fires_idle (hs : list positive) (s : Session) :
  timers s = ∅ → run host s (map TimerFires hs) = s.
Proof.
  intros Hempty. induction hs as [|h hs IH]; [done |].
  rewrite run_fires_cons. unfold fire. by rewrite Hempty, lookup_empty.
Qed.

(** Whatever the host fires, at most one callback runs. *)
Lemma fires_at_most_one (hs : list positive) (s : Session) :
  Spec.session_ok s →
  (length (dispatches (run host s (map TimerFires hs))) ≤ length (dispatches s) + 1)%nat.
Proof.
  intros Hok. induction hs as [|h hs IH]; [simpl; lia |].
  rewrite run_fires_cons.
  destruct (fire_cases host h s Hok) as [-> | (_ & task & Hone & ->)]; [exact IH |].
  destruct (run_task_fields host task (clearTimeout h s)) as (Htimers & _ & _ & d & Hlog & _).
  simpl in Htimers, Hlog. rewrite Hone, delete_singleton_eq in Htimers.
  rewrite fires_idle by done. rewrite Hlog, length_app. simpl. lia.
Qed.

(** Once prefetched, the session never changes again. *)
Lemma prefetched_is_final (evs : list Event) (s : Session) :
  Spec.session_ok s → isPrefetched s = true → run host s evs = s.
Proof.
  intros Hok Hflag. pose proof (Spec.ok_done s Hok Hflag) as Hempty.
  induction evs as [|ev evs IH]; [done |].
  rewrite run_cons.
  assert (step host s ev = s) as ->; [| exact IH].
  destruct ev as [to options | | | h]; simpl.
  - unfold handlePrefetch. by rewrite Hflag, !orb_true_r.
  - by apply clear_pending_idle.
  - by apply clear_pending_idle.
  - unfold fire. by rewrite Hempty, lookup_empty.
Qed.

(** C2.  In every session, [handlePrefetch] changes nothing, and so arms no
    timer, whenever prefetching is not enabled, the target is external,
    redirection is off, the link is disabled, or a dispatch of this session
    has already succeeded.  And once a dispatch has succeeded, whatever
    happens later (further hovers included) leaves the session as it is: no
    timer is armed and no further dispatch takes place. *)
Theorem handlePrefetch_guard (evs : list Event) (to : string) (options : Options) :
  let s := run host mount evs in
  let prefetchOptions := normalizePrefetchOptions (prefetch_or_false (prefetch options)) in
  ((get (enabled prefetchOptions) ≠ Some true
    ∨ isExternal options = Some true
    ∨ redirection options = Some false
    ∨ disabled options = Some true
    ∨ (∃ d, d ∈ dispatches s ∧ dispatch_result d = Normal true)) →
   handlePrefetch to options s = s ∧ timers (handlePrefetch to options s) = timers s)
  ∧ ((∃ d, d ∈ dispatches s ∧ dispatch_result d = Normal true) →
     timers s = ∅
     ∧ ∀ later : list Event,
         run host s later = s
         ∧ timers (run host s later) = ∅
         ∧ dispatches (run host s later) = dispatches s).
Proof.
  intros s prefetchOptions.
  pose proof (session_reachable_ok host evs : Spec.session_ok s) as Hok.
  assert ((∃ d, d ∈ dispatches s ∧ dispatch_result d = Normal true) → isPrefetched s = true)
    as Hdone.
  { intros (d & Hd & Hres). apply (Spec.ok_flag s Hok). exists d.
    by rewrite succeeded_result. }
  split.
  - intros Hguard.
    assert (handlePrefetch to options s = s) as ->; [| done].
    unfold handlePrefetch. fold prefetchOptions.
    destruct Hguard as [Hoff | [-> | [-> | [-> | Hdispatched]]]]; simpl.
    + destruct (get (enabled prefetchOptions)) as [[]|]; simpl; [congruence | done | done].
    + by rewrite !orb_true_r.
    + by rewrite !orb_true_r.
    + by rewrite !orb_true_r.
    + by rewrite (Hdone Hdispatched), !orb_true_r.
  - intros Hdispatched. pose proof (Hdone Hdispatched) as Hflag.
    pose proof (Spec.ok_done s Hok Hflag) as Hempty.
    split; [done |]. intros later.
    by rewrite (prefetched_is_final later s Hok Hflag).
Qed.

(** C3.  In every session at most one timer is armed.  A [handlePrefetch]
    that is let through removes the timer that was armed before it arms the
    new one, which is then the only one.  After two hovers in a row, whatever
    timers the host fires, at most one more dispatch takes place.  After
    [cancelPrefetch] or the unmount cleanup no timer is armed, and whatever
    the host fires afterwards, no dispatch takes place. *)
Theorem single_pending_timer (evs : list Event) :
  let s := run host mount evs in
  (size (timers s) ≤ 1)%nat
  ∧ (∀ to options,
       Spec.let_through options s →
       (∀ h, is_Some (timers s !! h) → timers (handlePrefetch to options s) !! h = None)
       ∧ prefetchTimeoutRef (handlePrefetch to options s) = Some (next_handle s)
       ∧ ∃ task, task_to task = to
                 ∧ timers (handlePrefetch to options s) = {[next_handle s := task]})
  ∧ (∀ to1 options1 to2 options2 fired,
       (length (dispatches (run host s (HoverEnter to1 options1 :: HoverEnter to2 options2
                                          :: map TimerFires fired)))
        ≤ length (dispatches s) + 1)%nat)
  ∧ (∀ ev fired,
       ev = HoverLeave ∨ ev = Unmount →
       timers (step host s ev) = ∅
       ∧ dispatches (run host (step host s ev) (map TimerFires fired)) = dispatches s).
Proof.
  intros s.
  pose proof (session_reachable_ok host evs : Spec.session_ok s) as Hok.
  split_and!.
  - destruct (Spec.ok_single s Hok) as [-> | (h & task & _ & ->)].
    + rewrite map_size_empty. lia.
    + by rewrite map_size_singleton.
  - intros to options Hthrough.
    destruct (handlePrefetch_let_through to options s Hthrough) as (task & Hto & ->).
    simpl. rewrite (clear_pending_timers s Hok), insert_empty.
    destruct (clear_pending_fields s) as (_ & _ & -> & _).
    split_and!; [| done | by exists task].
    intros h Hh. apply lookup_singleton_None.
    pose proof (Spec.ok_fresh s Hok h Hh). lia.
  - intros to1 options1 to2 options2 fired.
    rewrite !run_cons. simpl.
    pose proof (handlePrefetch_ok to1 options1 s Hok) as Hok1.
    pose proof (handlePrefetch_ok to2 options2 _ Hok1) as Hok2.
    pose proof (fires_at_most_one fired _ Hok2) as Hbound.
    assert (∀ to options s0, dispatches (handlePrefetch to options s0) = dispatches s0)
      as Hlog.
    { intros to options s0.
      destruct (handlePrefetch_cases to options s0) as [-> | (_ & task & ->)]; [done |].
      simpl. by destruct (clear_pending_fields s0) as (_ & -> & _). }
    by rewrite !Hlog in Hbound.
  - intros ev fired Hev.
    assert (step host s ev = clear_pending s) as -> by (by destruct Hev as [-> | ->]).
    pose proof (clear_pending_timers s Hok) as Hempty.
    split; [done |]. rewrite (fires_idle fired _ Hempty).
    by destruct (clear_pending_fields s) as (_ & -> & _).
Qed.

End SessionProperties.

(** ** Sample sessions *)

Section SampleSessions.
Import Prefetch UsePrefetch Samples.

Example hover_then_fire :
  dispatches (run dev_host mount hover_and_fire) = [dashboard_dispatch]
  ∧ isPrefetched (run dev_host mount hover_and_fire) = true
  ∧ timers (run dev_host mount hover_and_fire) = ∅.
Proof. split_and!; reflexivity. Qed.

Example hover_arms_one_timer :
  timers (run dev_host mount [HoverEnter "/dashboard" hover_options])
  = {[1%positive := dashboard_task]}.
Proof. reflexivity. Qed.

Example hover_twice_then_fire :
  timers (run dev_host mount [HoverEnter "/dashboard" hover_options;
                               HoverEnter "/dashboard" hover_options])
  = {[2%positive := dashboard_task]}
  ∧ dispatches (run dev_host mount [HoverEnter "/dashboard" hover_options;
                                    HoverEnter "/dashboard" hover_options;
                                    TimerFires 1%positive; TimerFires 2%positive])
    = [dashboard_dispatch].
Proof. split; reflexivity. Qed.

Example hover_leave_then_fire :
  dispatches (run dev_host mount [HoverEnter "/dashboard" hover_options; HoverLeave;
                                  TimerFires 1%positive])
  = [].
Proof. reflexivity. Qed.

Example hover_disabled_link :
  run dev_host mount [HoverEnter "/dashboard" disabled_options] = mount.
Proof. reflexivity. Qed.

Lemma handlePrefetch_guard_witness :
  let s := run dev_host mount hover_and_fire in
  (handlePrefetch "/dashboard" hover_options s = s
   ∧ timers (handlePrefetch "/dashboard" hover_options s) = timers s)
  ∧ run dev_host s [HoverEnter "/dashboard" hover_options; TimerFires 2%positive] = s.
Proof.
  intros s.
  assert (∃ d, d ∈ dispatches s ∧ dispatch_result d = Normal true) as Hdispatched.
  { exists dashboard_dispatch. split; [apply list_elem_of_here | reflexivity]. }
  destruct (handlePrefetch_guard dev_host hover_and_fire "/dashboard" hover_options)
    as [Hguard Hfinal].
  split.
  - apply Hguard. do 4 right. exact Hdispatched.
  - destruct (Hfinal Hdispatched) as [_ Hlater].
    apply (Hlater [HoverEnter "/dashboard" hover_options; TimerFires 2%positive]).
Defined.

Lemma single_pending_timer_witness :
  let s := run dev_host mount [HoverEnter "/dashboard" hover_options] in
  (timers (handlePrefetch "/dashboard" hover_options s) !! 1%positive = None
   ∧ prefetchTimeoutRef (handlePrefetch "/dashboard" hover_options s) = Some 2%positive)
  ∧ timers (step dev_host s HoverLeave) = ∅
  ∧ dispatches (run dev_host (step dev_host s HoverLeave) (map TimerFires [1%positive]))
    = dispatches s.
Proof.
  intros s.
  destruct (single_pending_timer dev_host [HoverEnter "/dashboard" hover_options])
    as (_ & Hstart & _ & Hcancel).
  split.
  - destruct (Hstart "/dashboard" hover_options) as (Hcleared & Href & _).
    + repeat split; discriminate.
    + split; [| exact Href]. apply Hcleared. by exists dashboard_task.
  - apply (Hcancel HoverLeave [1%positive]). by left.
Defined.

End SampleSessions.

(** ** Further properties of the same functions *)

Section Further.
Import Matchers Prefetch UsePrefetch.

(** X1.  [cleanUrl] returns ["/"] for a missing or empty argument, returns
    an argument that starts with ["/"] unchanged, and otherwise puts ["/"] in
    front of it; its result always starts with ["/"]. *)
Theorem cleanUrl_leading_slash (url : option string) :
  (url = None ∨ url = Some "" → cleanUrl url = "/")
  ∧ (∀ u, url = Some u → Spec.begins_with u "/" → cleanUrl url = u)
  ∧ (∀ u, url = Some u → u ≠ "" → ¬ Spec.begins_with u "/" → cleanUrl url = "/" ++ u)
  ∧ Spec.begins_with (cleanUrl url) "/".
Proof.
  split_and!.
  - by intros [-> | ->].
  - intros u -> Hslash. apply startsWith_begins_with in Hslash.
    destruct u as [|c u]; [discriminate Hslash |].
    unfold cleanUrl. by rewrite Hslash.
  - intros u -> Hne Hslash. unfold cleanUrl.
    apply truthy_string_nonempty in Hne. rewrite Hne. cbn [negb].
    destruct (startsWith u "/") eqn:Hstart; [| done].
    exfalso. by apply Hslash, startsWith_begins_with.
  - destruct url as [u|]; [| by exists ""]. unfold cleanUrl.
    destruct (truthy_string u); cbn [negb]; [| by exists ""].
    destruct (startsWith u "/") eqn:Hstart.
    + by apply startsWith_begins_with.
    + by exists u.
Qed.

Lemma cleanUrl_leading_slash_witness : cleanUrl (Some "home") = "/" ++ "home".
Proof.
  destruct (cleanUrl_leading_slash (Some "home")) as (_ & _ & Hprepend & _).
  apply Hprepend; [reflexivity | discriminate |].
  intros [rest Hrest]. discriminate Hrest.
Defined.

(** X2.  With strategy ['custom'] and a callback that returns, on a
    non-external target, [executePrefetch] calls the callback exactly once,
    with the target, registers no hint, writes nothing to the console and
    returns [true]. *)
Theorem executePrefetch_custom_callback (host : Host) (url : string)
    (routerContext : option RouterHolder) (f : Callback) :
  f url = Normal tt →
  executePrefetch host url "custom" false routerContext (Some f)
  = ([Invoked CustomPrefetch url], Normal true).
Proof. intros Hf. by rewrite executePrefetch_custom, Hf. Qed.

Lemma executePrefetch_custom_callback_witness :
  executePrefetch Samples.dev_host "/dashboard" "custom" false None
    (Some Samples.quiet_callback)
  = ([Invoked CustomPrefetch "/dashboard"], Normal true).
Proof.
  apply (executePrefetch_custom_callback Samples.dev_host "/dashboard" None
           Samples.quiet_callback).
  reflexivity.
Defined.

(** X3.  For ['wouter'] and for every strategy name the [switch] does not
    know, on a non-external target, [executePrefetch] registers the single
    [rel='prefetch'] hint with [as='document'], calls nothing and returns
    [true]. *)
Theorem executePrefetch_single_hint (host : Host) (url routerType : string)
    (routerContext : option RouterHolder) (customPrefetch : option Callback) :
  routerType ∉ Spec.two_step_strategies →
  (routerType = "custom" → customPrefetch = None) →
  let r := executePrefetch host url routerType false routerContext customPrefetch in
  r.2 = Normal true
  ∧ hints r.1 = [ {| rel := "prefetch"; href := url; as_ := "document" |} ]
  ∧ calls r.1 = [].
Proof.
  intros Hout Hguard r. subst r. unfold executePrefetch, switch_routerType.
  assert ((if String.eqb routerType "custom" then customPrefetch else None) = None) as ->.
  { destruct (String.eqb_spec routerType "custom") as [Heq|]; [by apply Hguard | done]. }
  destruct (String.eqb_spec routerType "react-router") as [->|_].
  { exfalso. apply Hout. unfold Spec.two_step_strategies. set_solver. }
  destruct (String.eqb_spec routerType "tanstack-router") as [->|_].
  { exfalso. apply Hout. unfold Spec.two_step_strategies. set_solver. }
  destruct (String.eqb routerType "wouter"); simpl; by destruct (not_production host).
Qed.

Lemma executePrefetch_single_hint_witness :
  let r := executePrefetch Samples.dev_host "/dashboard" "wouter" false None None in
  r.2 = Normal true
  ∧ hints r.1 = [ {| rel := "prefetch"; href := "/dashboard"; as_ := "document" |} ]
  ∧ calls r.1 = [].
Proof.
  apply (executePrefetch_single_hint Samples.dev_host "/dashboard" "wouter" None None).
  - unfold Spec.two_step_strategies. intros Hin.
    repeat (apply elem_of_cons in Hin as [Hin|Hin]; [discriminate Hin |]).
    by apply elem_of_nil in Hin.
  - discriminate.
Defined.

(** X4.  When a timer fires, the session becomes prefetched exactly if it
    was already, or the timer was armed and its [executePrefetch] returned
    [true]; after a dispatch that did not succeed the session is not
    prefetched, no timer is armed, and the next hover that is let through
    arms a timer again. *)
Theorem failed_dispatch_can_retry (host : Host) (evs : list Event) (h : positive) :
  let s := run host mount evs in
  (isPrefetched (fire host h s) = true
   ↔ isPrefetched s = true
     ∨ ∃ task, timers s !! h = Some task
               ∧ (executePrefetch host (task_to task) (task_routerType task)
                    (task_isExternal task) (task_routerContext task)
                    (task_customPrefetch task)).2 = Normal true)
  ∧ (is_Some (timers s !! h) → isPrefetched (fire host h s) = false →
     timers (fire host h s) = ∅
     ∧ ∀ to options,
         Spec.let_through options (fire host h s) →
         ∃ task, task_to task = to
                 ∧ timers (handlePrefetch to options (fire host h s))
                   = {[next_handle s := task]}).
Proof.
  intros s.
  pose proof (session_reachable_ok host evs : Spec.session_ok s) as Hok.
  pose proof (fire_ok host h s Hok) as Hok'.
  split.
  - unfold fire. destruct (timers s !! h) as [task|] eqn:Hh.
    + unfold run_task.
      destruct (executePrefetch _ _ _ _ _ _) as [effects success] eqn:Hrun. simpl.
      split.
      * destruct success as [[]|]; intros Hflag; [| by left ..].
        right. exists task. by rewrite Hrun.
      * intros [Hflag | (task' & [= <-] & Hsucc)].
        -- by destruct success as [[]|].
        -- rewrite Hrun in Hsucc. simpl in Hsucc. by rewrite Hsucc.
    + split; [by left |]. intros [Hflag | (task' & Hsome & _)]; [done | congruence].
  - intros [task Hh] Hflag.
    destruct (fire_cases host h s Hok) as [Hsame | (_ & task' & Hone & Hfire)].
    { unfold fire in Hsame. rewrite Hh in Hsame.
      pose proof (f_equal dispatches Hsame) as Hlog. unfold run_task in Hlog.
      destruct (executePrefetch _ _ _ _ _ _) as [effects success]. simpl in Hlog.
      apply (f_equal length) in Hlog. rewrite length_app in Hlog. simpl in Hlog. lia. }
    destruct (run_task_fields host task' (clearTimeout h s))
      as (Htimers & Hnext & _ & _).
    simpl in Htimers, Hnext. rewrite Hone, delete_singleton_eq in Htimers.
    rewrite <- Hfire in Htimers, Hnext.
    split; [exact Htimers |]. intros to options Hthrough.
    destruct (handlePrefetch_let_through to options _ Hthrough) as (new & Hto & ->).
    exists new. split; [exact Hto |]. simpl.
    rewrite (clear_pending_timers _ Hok'), insert_empty.
    destruct (clear_pending_fields (fire host h s)) as (_ & _ & -> & _).
    by rewrite Hnext.
Qed.

Lemma failed_dispatch_can_retry_witness :
  let s := run Samples.dev_host mount
             [HoverEnter "http://" Samples.hover_options; TimerFires 1%positive] in
  isPrefetched s = false
  ∧ ∃ task, task_to task = "http://"
            ∧ timers (handlePrefetch "http://" Samples.hover_options s)
              = {[2%positive := task]}.
Proof.
  intros s. split; [reflexivity |].
  destruct (failed_dispatch_can_retry Samples.dev_host
              [HoverEnter "http://" Samples.hover_options] 1%positive) as [_ Hretry].
  destruct Hretry as [_ Hagain].
  - eexists. reflexivity.
  - reflexivity.
  - apply (Hagain "http://" Samples.hover_options).
    repeat split; discriminate.
Defined.

End Further.

(** ** Further properties of the matchers *)

Section MatcherFacts.
Import Matchers.

Lemma startsWith_refl (s : string) : startsWith s s = true.
Proof. induction s as [|c s IH]; simpl; [done |]. by rewrite Ascii.eqb_refl. Qed.

Lemma startsWith_includes (s t : string) : startsWith s t = true → includes s t = true.
Proof. intros H. destruct s; simpl; by rewrite H. Qed.

Lemma startsWith_length (s t : string) :
  startsWith s t = true → (String.length t ≤ String.length s)%nat.
Proof.
  revert s. induction t as [|c t IH]; intros s; simpl; [lia |].
  destruct s as [|d s]; [done |]. destruct (Ascii.eqb d c); [| done].
  intros H. apply IH in H. simpl. lia.
Qed.

Lemma includes_length (s t : string) :
  includes s t = true → (String.length t ≤ String.length s)%nat.
Proof.
  induction s as [|d s IH]; simpl.
  - rewrite orb_false_r. apply startsWith_length.
  - rewrite orb_true_iff. intros [H | H].
    + apply (startsWith_length (String d s)) in H. exact H.
    + apply IH in H. lia.
Qed.

(** X5.  The three string modes are ordered by what they accept: a link that
    is active under ['exact'] is active under ['startsWith'], and one that is
    active under ['startsWith'] is active under ['includes'] (also under an
    omitted or unknown mode, which is ['includes']). *)
Theorem match_modes_ordered (pathname url : string) (pattern : option RegExp) :
  (isActive pathname url (Some "exact") pattern = Normal true →
   isActive pathname url (Some "startsWith") pattern = Normal true)
  ∧ (isActive pathname url (Some "startsWith") pattern = Normal true →
     isActive pathname url (Some "includes") pattern = Normal true
     ∧ isActive pathname url None pattern = Normal true).
Proof.
  rewrite isActive_exact, isActive_startsWith, isActive_includes, isActive_default.
  split.
  - intros [= Heq]. apply String.eqb_eq in Heq as ->. by rewrite startsWith_refl.
  - intros [= Hstart]. by rewrite (startsWith_includes _ _ Hstart).
Qed.

Lemma match_modes_ordered_witness :
  isActive "/home" "/home" (Some "startsWith") None = Normal true.
Proof.
  destruct (match_modes_ordered "/home" "/home" None) as [Hexact _].
  apply Hexact. reflexivity.
Defined.

(** X6.  Edge cases of the string modes.  An empty target is a prefix and a
    substring of every path, so it makes a link active under ['startsWith']
    and ['includes'] whatever the path; a target longer than the path makes it
    inactive under ['exact'], ['startsWith'] and ['includes']. *)
Theorem match_modes_edges (pathname url : string) (pattern : option RegExp) :
  isActive pathname "" (Some "startsWith") pattern = Normal true
  ∧ isActive pathname "" (Some "includes") pattern = Normal true
  ∧ ((Terms.size pathname < Terms.size url)%nat →
     isActive pathname url (Some "exact") pattern = Normal false
     ∧ isActive pathname url (Some "startsWith") pattern = Normal false
     ∧ isActive pathname url (Some "includes") pattern = Normal false).
Proof.
  rewrite !isActive_startsWith, !isActive_includes, isActive_exact. split_and!.
  - reflexivity.
  - by destruct pathname.
  - unfold Terms.size. intros Hlen. split_and!; f_equal.
    + apply String.eqb_neq. intros ->. lia.
    + destruct (startsWith pathname url) eqn:H; [| done].
      apply startsWith_length in H. lia.
    + destruct (includes pathname url) eqn:H; [| done].
      apply includes_length in H. lia.
Qed.

Lemma match_modes_edges_witness :
  isActive "/a" "/home" (Some "includes") None = Normal false.
Proof.
  destruct (match_modes_edges "/a" "/home" None) as (_ & _ & Hlonger).
  destruct Hlonger as (_ & _ & Hincludes); [| exact Hincludes].
  unfold Terms.size. simpl. lia.
Defined.

(** X7.  [cleanUrl] is idempotent, and its result is never empty: cleaning
    a cleaned URL changes nothing. *)
Theorem cleanUrl_idempotent (url : option string) :
  cleanUrl (Some (cleanUrl url)) = cleanUrl url ∧ cleanUrl url ≠ "".
Proof.
  destruct (cleanUrl_leading_slash url) as (_ & _ & _ & Hslash).
  destruct (cleanUrl_leading_slash (Some (cleanUrl url))) as (_ & Hkeep & _ & _).
  split.
  - by apply Hkeep.
  - destruct Hslash as [rest ->]. rewrite append_cons. discriminate.
Qed.

End MatcherFacts.

(** ** Further properties of the prefetch helpers *)

Section PrefetchFacts.
Import Prefetch.

(** X8.  Normalizing is idempotent: handing the result of
    [normalizePrefetchOptions] back to it as an object gives the same options,
    so a configuration can be normalized at several layers without harm. *)
Theorem normalizePrefetchOptions_idempotent (prefetch : PrefetchProp) :
  normalizePrefetchOptions (PObject (normalizePrefetchOptions prefetch))
  = normalizePrefetchOptions prefetch.
Proof.
  destruct prefetch as [b | o |]; simpl; [done | | done].
  unfold spread; simpl.
  by destruct (enabled o), (delay o), (routerType o), (customPrefetch o).
Qed.

Lemma executePrefetch_default_case host url routerType routerContext customPrefetch :
  (if String.eqb routerType "custom" then customPrefetch else None) = None →
  String.eqb routerType "react-router" = false →
  String.eqb routerType "tanstack-router" = false →
  executePrefetch host url routerType false routerContext customPrefetch
  = (AppendToHead (prefetch_hint url) :: Spec.success_report host url routerType,
     Normal true).
Proof.
  intros Hcustom Hreact Htanstack.
  unfold executePrefetch, switch_routerType, Spec.success_report.
  rewrite Hcustom, Hreact, Htanstack.
  destruct (String.eqb routerType "wouter"); simpl; by destruct (not_production host).
Qed.

(** The runs of [executePrefetch], branch by branch. *)
Lemma executePrefetch_runs host url routerType isExternal routerContext customPrefetch :
  let r := executePrefetch host url routerType isExternal routerContext customPrefetch in
  r = ([], Normal false)
  ∨ (∃ f, routerType = "custom" ∧ customPrefetch = Some f
          ∧ r = ([Invoked CustomPrefetch url],
                 match f url with Normal _ => Normal true | Throw e => Throw e end))
  ∨ (∃ origin, r = (AppendToHead (prefetch_hint url)
                      :: AppendToHead (preconnect_hint origin)
                      :: Spec.success_report host url routerType, Normal true))
  ∨ (∃ e, r = (AppendToHead (prefetch_hint url) :: Spec.error_report host url e,
               Normal false))
  ∨ (∃ c f, r = Spec.capability_run host c f url)
  ∨ r = ([ConsoleWarn "TanStack Router prefetch: router instance not found"], Normal false)
  ∨ r = (AppendToHead (prefetch_hint url) :: Spec.success_report host url routerType,
         Normal true).
Proof.
  intros r. subst r. destruct isExternal; [by left |].
  destruct (if String.eqb routerType "custom" then customPrefetch else None)
    as [f|] eqn:Hcustom.
  { right; left. exists f.
    destruct (String.eqb_spec routerType "custom") as [->|]; [| done].
    simpl in Hcustom. subst customPrefetch. split_and!; try done.
    apply executePrefetch_custom. }
  destruct (String.eqb_spec routerType "react-router") as [->|Hreact].
  { rewrite executePrefetch_react_router.
    destruct (URL_origin host url (location_origin host)) as [origin|e].
    - do 2 right; left. by exists origin.
    - do 3 right; left. by exists e. }
  destruct (String.eqb_spec routerType "tanstack-router") as [->|Htanstack].
  { destruct (router_prefetch routerContext) as [f|] eqn:Hf.
    - do 4 right; left. exists ContextRouterPrefetch, f.
      by apply executePrefetch_tanstack_context.
    - destruct (router_prefetch (TanStackRouter host)) as [g|] eqn:Hg.
      + do 4 right; left. exists GlobalRouterPrefetch, g.
        by apply executePrefetch_tanstack_global.
      + do 5 right; left. by apply executePrefetch_tanstack_missing. }
  do 6 right. apply executePrefetch_default_case; [done | ..]; by apply String.eqb_neq.
Qed.

(** X9.  Whatever its arguments, one call of [executePrefetch] registers at
    most two hints and calls at most one caller-supplied function, never both;
    when it returns [true] it has registered a hint or called a function; and
    it throws only in the custom branch, with the exception of the custom
    callback. *)
Theorem executePrefetch_effect_bounds (host : Host) (url routerType : string)
    (isExternal : bool) (routerContext : option RouterHolder)
    (customPrefetch : option Callback) :
  let r := executePrefetch host url routerType isExternal routerContext customPrefetch in
  (length (hints r.1) ≤ 2)%nat
  ∧ (length (calls r.1) ≤ 1)%nat
  ∧ (hints r.1 = [] ∨ calls r.1 = [])
  ∧ (r.2 = Normal true → hints r.1 ≠ [] ∨ calls r.1 ≠ [])
  ∧ (∀ e, r.2 = Throw e →
          routerType = "custom" ∧ ∃ f, customPrefetch = Some f ∧ f url = Throw e).
Proof.
  intros r.
  destruct (executePrefetch_runs host url routerType isExternal routerContext customPrefetch)
    as [H | [(f & Hrt & Hcb & H) | [(origin & H) | [(e & H) | [(c & f & H)
       | [H | H]]]]]];
    fold r in H; rewrite H; clear H; simpl;
    rewrite ?hints_success_report, ?calls_success_report,
            ?hints_error_report, ?calls_error_report; simpl.
  - split_and!; [lia | lia | by left | done | done].
  - split_and!; [lia | lia | by left | by right |].
    intros e He. split; [done |]. exists f. split; [done |].
    destruct (f url) as [[]|e']; [done | by injection He as ->].
  - split_and!; [lia | lia | by right | by left | done].
  - split_and!; [lia | lia | by right | done | done].
  - unfold Spec.capability_run. destruct (f url) as [[]|e]; simpl;
      rewrite ?hints_success_report, ?calls_success_report,
              ?hints_error_report, ?calls_error_report; simpl;
      (split_and!; [lia | lia | by left | try done; by right | done]).
  - split_and!; [lia | lia | by left | done | done].
  - split_and!; [lia | lia | by right | by left | done].
Qed.

Lemma executePrefetch_effect_bounds_witness :
  let r := executePrefetch Samples.dev_host "/dashboard" "react-router" false None None in
  hints r.1 ≠ [] ∨ calls r.1 ≠ [].
Proof.
  destruct (executePrefetch_effect_bounds Samples.dev_host "/dashboard" "react-router"
              false None None) as (_ & _ & _ & Hdone & _).
  apply Hdone. reflexivity.
Defined.

Lemma Forall_silent_report_success host url routerType :
  NODE_ENV host = Some "production" →
  Spec.success_report host url routerType = [].
Proof. unfold Spec.success_report, not_production. by intros ->. Qed.

Lemma Forall_silent_report_error host url e :
  NODE_ENV host = Some "production" → Spec.error_report host url e = [].
Proof. unfold Spec.error_report, not_production. by intros ->. Qed.

(** X10.  In a production build ([process.env.NODE_ENV] is ['production'])
    [executePrefetch] writes nothing to the console, whatever its arguments,
    with one exception: the warning of the ['tanstack-router'] strategy when no
    router is found, which is not guarded. *)
Theorem executePrefetch_production_console (host : Host) (url routerType : string)
    (isExternal : bool) (routerContext : option RouterHolder)
    (customPrefetch : option Callback) :
  NODE_ENV host = Some "production" →
  Forall Terms.silent_or_warning
    (executePrefetch host url routerType isExternal routerContext customPrefetch).1.
Proof.
  intros Hprod.
  destruct (executePrefetch_runs host url routerType isExternal routerContext customPrefetch)
    as [H | [(f & Hrt & Hcb & H) | [(origin & H) | [(e & H) | [(c & f & H)
       | [H | H]]]]]];
    rewrite H; clear H; simpl;
    rewrite ?(Forall_silent_report_success _ _ _ Hprod),
            ?(Forall_silent_report_error _ _ _ Hprod).
  - constructor.
  - by repeat constructor.
  - by repeat constructor.
  - by repeat constructor.
  - unfold Spec.capability_run. destruct (f url) as [[]|e]; simpl;
      rewrite ?(Forall_silent_report_success _ _ _ Hprod),
              ?(Forall_silent_report_error _ _ _ Hprod);
      by repeat constructor.
  - by repeat constructor.
  - by repeat constructor.
Qed.

Lemma executePrefetch_production_console_witness :
  Forall Terms.silent_or_warning
    (executePrefetch Samples.production_host "/dashboard" "tanstack-router" false None None).1.
Proof.
  apply (executePrefetch_production_console Samples.production_host).
  reflexivity.
Defined.

End PrefetchFacts.

(** ** Further properties of the prefetch session *)

Section SessionFacts.
Import Prefetch UsePrefetch.
Variable host : Host.

Lemma or_Z_nonzero (a : option Z) (b : Z) : b ≠ 0%Z → or_Z a b ≠ 0%Z.
Proof.
  intros Hb. unfold or_Z, truthy_Z. destruct a as [z|]; [| done].
  destruct (Z.eqb_spec z 0); simpl; done.
Qed.

Lemma or_string_nonempty (a : option string) (b : string) : b ≠ "" → or_string a b ≠ "".
Proof.
  intros Hb. unfold or_string. destruct a as [s|]; [| done].
  destruct s; simpl; done.
Qed.

(** The task [handlePrefetch] arms when it is let through. *)
Lemma handlePrefetch_armed (to : string) (options : Options) (s : Session) :
  handlePrefetch to options s = s
  ∨ ∃ task, Terms.armed_by_hook task ∧ task_to task = to
            ∧ handlePrefetch to options s = arm task (clear_pending s).
Proof.
  unfold handlePrefetch.
  destruct (negb _ || _ || _ || _ || isPrefetched s) eqn:Hguard; [by left |].
  right. eexists. split_and!; [| | reflexivity]; [| reflexivity].
  repeat (apply orb_false_iff in Hguard as [Hguard ?]).
  split_and!; simpl.
  - done.
  - by apply or_Z_nonzero.
  - by apply or_string_nonempty.
Qed.

Lemma successes_app (log1 log2 : list Dispatch) :
  Terms.successes (log1 ++ log2) = (Terms.successes log1 + Terms.successes log2)%nat.
Proof. unfold Terms.successes. by rewrite filter_app, length_app. Qed.

Lemma successes_one (d : Dispatch) : (Terms.successes [d] ≤ 1)%nat.
Proof.
  unfold Terms.successes. rewrite filter_cons, filter_nil.
  destruct (decide _); simpl; lia.
Qed.

(** While the session is not prefetched, no dispatch of its log succeeded. *)
Lemma successes_none (s : Session) :
  Spec.session_ok s → isPrefetched s = false → Terms.successes (dispatches s) = 0%nat.
Proof.
  intros Hok Hflag. unfold Terms.successes.
  destruct (filter _ (dispatches s)) as [|d rest] eqn:Hfilter; [done |].
  assert (d ∈ filter (λ d, succeeded d = true) (dispatches s)) as Hd.
  { rewrite Hfilter. apply list_elem_of_here. }
  apply list_elem_of_filter in Hd as [Hsucc Hin].
  assert (isPrefetched s = true) by (apply (Spec.ok_flag s Hok); eauto).
  congruence.
Qed.

Lemma handlePrefetch_dispatches (to : string) (options : Options) (s : Session) :
  dispatches (handlePrefetch to options s) = dispatches s.
Proof.
  destruct (handlePrefetch_cases to options s) as [-> | (_ & task & ->)]; [done |].
  simpl. by destruct (clear_pending_fields s) as (_ & -> & _).
Qed.

Lemma step_successes (s : Session) (ev : Event) :
  Spec.session_ok s → (Terms.successes (dispatches s) ≤ 1)%nat →
  (Terms.successes (dispatches (step host s ev)) ≤ 1)%nat.
Proof.
  intros Hok Hone. destruct ev as [to options | | | h]; simpl.
  - by rewrite handlePrefetch_dispatches.
  - unfold cancelPrefetch. by destruct (clear_pending_fields s) as (_ & -> & _).
  - unfold unmount. by destruct (clear_pending_fields s) as (_ & -> & _).
  - destruct (fire_cases host h s Hok) as [-> | (Hflag & task & _ & ->)]; [done |].
    destruct (run_task_fields host task (clearTimeout h s)) as (_ & _ & _ & d & -> & _).
    simpl. rewrite successes_app, (successes_none s Hok Hflag).
    pose proof (successes_one d). lia.
Qed.

(** X11.  In any session, whatever the events and their order, at most one
    dispatch ever returns [true]: a target is prefetched successfully at most
    once per mounted link. *)
Theorem at_most_one_successful_dispatch (evs : list Event) :
  (Terms.successes (dispatches (run host mount evs)) ≤ 1)%nat.
Proof.
  assert (∀ s, Spec.session_ok s → (Terms.successes (dispatches s) ≤ 1)%nat →
               (Terms.successes (dispatches (run host s evs)) ≤ 1)%nat) as Hrun.
  { induction evs as [|ev evs IH]; intros s Hok Hone; [done |].
    rewrite run_cons. apply IH; [by apply step_ok | by apply step_successes]. }
  apply Hrun; [apply mount_ok |]. unfold Terms.successes. simpl. lia.
Qed.

Lemma step_armed_by_hook (s : Session) (ev : Event) :
  Spec.session_ok s →
  (∀ h task, timers s !! h = Some task → Terms.armed_by_hook task) →
  (∀ d, d ∈ dispatches s → Terms.armed_by_hook (dispatch_task d)) →
  (∀ h task, timers (step host s ev) !! h = Some task → Terms.armed_by_hook task)
  ∧ (∀ d, d ∈ dispatches (step host s ev) → Terms.armed_by_hook (dispatch_task d)).
Proof.
  intros Hok Htimers Hlog.
  assert (∀ s', timers s' = ∅ → ∀ h task, timers s' !! h = Some task →
                Terms.armed_by_hook task) as Hnone.
  { intros s' Hempty h task Hh. by rewrite Hempty, lookup_empty in Hh. }
  destruct ev as [to options | | | h]; simpl.
  - rewrite handlePrefetch_dispatches. split; [| done].
    destruct (handlePrefetch_armed to options s) as [-> | (task & Harmed & _ & ->)]; [done |].
    simpl. rewrite (clear_pending_timers s Hok), insert_empty.
    intros h task' Hh. by apply lookup_singleton_Some in Hh as [_ <-].
  - unfold cancelPrefetch. destruct (clear_pending_fields s) as (_ & -> & _).
    split; [| done]. apply Hnone. by apply clear_pending_timers.
  - unfold unmount. destruct (clear_pending_fields s) as (_ & -> & _).
    split; [| done]. apply Hnone. by apply clear_pending_timers.
  - destruct (fire_cases host h s Hok) as [-> | (_ & task & Hone & ->)]; [done |].
    destruct (run_task_fields host task (clearTimeout h s))
      as (Htable & _ & _ & d & -> & Htask & _).
    simpl in Htable. rewrite Hone, delete_singleton_eq in Htable.
    split; [by apply Hnone |].
    intros d' Hd'. simpl in Hd'. apply elem_of_app in Hd' as [Hold | Hnew]; [by apply Hlog |].
    apply list_elem_of_singleton in Hnew as ->. rewrite Htask.
    apply (Htimers h). rewrite Hone. apply lookup_singleton_eq.
Qed.

(** X12.  Every timer the hook arms, and so every dispatch it makes, is for
    a target that is not external, with a delay that is not 0 (a configured
    delay of 0 is replaced by 200) and a router type that is not the empty
    string (an empty one is replaced by ['react-router']): the hook never
    reaches the external early return of [executePrefetch]. *)
Theorem dispatched_tasks_armed_by_hook (evs : list Event) :
  let s := run host mount evs in
  (∀ h task, timers s !! h = Some task → Terms.armed_by_hook task)
  ∧ (∀ d, d ∈ dispatches s → Terms.armed_by_hook (dispatch_task d)).
Proof.
  assert (∀ s, Spec.session_ok s →
            (∀ h task, timers s !! h = Some task → Terms.armed_by_hook task) →
            (∀ d, d ∈ dispatches s → Terms.armed_by_hook (dispatch_task d)) →
            (∀ h task, timers (run host s evs) !! h = Some task → Terms.armed_by_hook task)
            ∧ (∀ d, d ∈ dispatches (run host s evs) →
                    Terms.armed_by_hook (dispatch_task d))) as Hrun.
  { induction evs as [|ev evs IH]; intros s Hok Htimers Hlog; [done |].
    rewrite run_cons.
    destruct (step_armed_by_hook s ev Hok Htimers Hlog) as [Htimers' Hlog'].
    apply IH; [by apply step_ok | done | done]. }
  apply Hrun; [apply mount_ok | |].
  - intros h task Hh. simpl in Hh. by rewrite lookup_empty in Hh.
  - intros d Hd. simpl in Hd. by apply elem_of_nil in Hd.
Qed.

Lemma step_budget (s : Session) (ev : Event) :
  Spec.session_ok s →
  (length (dispatches (step host s ev)) + size (timers (step host s ev))
   ≤ length (dispatches s) + size (timers s) + Terms.hovers [ev])%nat.
Proof.
  intros Hok. destruct ev as [to options | | | h]; simpl.
  - rewrite handlePrefetch_dispatches.
    destruct (handlePrefetch_cases to options s) as [-> | (_ & task & ->)].
    + unfold Terms.hovers. simpl. lia.
    + simpl. rewrite (clear_pending_timers s Hok), insert_empty, map_size_singleton.
      unfold Terms.hovers. simpl. lia.
  - unfold cancelPrefetch. destruct (clear_pending_fields s) as (_ & -> & _).
    rewrite (clear_pending_timers s Hok), map_size_empty. lia.
  - unfold unmount. destruct (clear_pending_fields s) as (_ & -> & _).
    rewrite (clear_pending_timers s Hok), map_size_empty. lia.
  - destruct (fire_cases host h s Hok) as [-> | (_ & task & Hone & ->)]; [lia |].
    destruct (run_task_fields host task (clearTimeout h s))
      as (Htable & _ & _ & d & -> & _).
    simpl in *. rewrite Htable, Hone, delete_singleton_eq, map_size_empty,
      map_size_singleton, length_app. simpl. lia.
Qed.

(** X13.  A dispatch is always the consequence of a hover: in any session
    the dispatches made so far, together with the timer still armed, number at
    most the hovers of the session, so a link that was hovered [n] times has
    dispatched at most [n] times. *)
Theorem dispatches_bounded_by_hovers (evs : list Event) :
  let s := run host mount evs in
  (length (dispatches s) + size (timers s) ≤ Terms.hovers evs)%nat.
Proof.
  assert (∀ s, Spec.session_ok s →
            (length (dispatches (run host s evs)) + size (timers (run host s evs))
             ≤ length (dispatches s) + size (timers s) + Terms.hovers evs)%nat) as Hrun.
  { induction evs as [|ev evs IH]; intros s Hok.
    - unfold Terms.hovers. simpl. lia.
    - rewrite run_cons. pose proof (IH _ (step_ok host s ev Hok)) as Hrest.
      pose proof (step_budget s ev Hok) as Hstep.
      assert (Terms.hovers (ev :: evs) = (Terms.hovers [ev] + Terms.hovers evs)%nat) as ->.
      { unfold Terms.hovers. change (ev :: evs) with ([ev] ++ evs)%list.
        by rewrite filter_app, length_app. }
      lia. }
  intros s. pose proof (Hrun mount mount_ok) as H. simpl in H.
  rewrite map_size_empty in H. exact H.
Qed.

End SessionFacts.

Lemma dispatched_tasks_armed_by_hook_witness :
  Terms.armed_by_hook Samples.dashboard_task.
Proof.
  destruct (dispatched_tasks_armed_by_hook Samples.dev_host
              [UsePrefetch.HoverEnter "/dashboard" Samples.hover_options]) as [Htimers _].
  apply (Htimers 1%positive). reflexivity.
Defined.

(** ** The class name of the rendered element *)

Section ClassName.
Import NavPlus.

Lemma append_nonempty (s t : string) : t ≠ "" → s ++ t ≠ "".
Proof.
  intros Ht. destruct s; [by rewrite append_nil |]. rewrite append_cons. discriminate.
Qed.

Lemma append_assoc (s t u : string) : (s ++ t) ++ u = s ++ (t ++ u).
Proof.
  induction s as [|c s IH]; [by rewrite !append_nil |].
  by rewrite !append_cons, IH.
Qed.

Lemma trimEnd_append (s t : string) : trimEnd t ≠ "" → trimEnd (s ++ t) = s ++ trimEnd t.
Proof.
  intros Ht. induction s as [|c s IH]; [by rewrite !append_nil |].
  rewrite !append_cons. simpl. rewrite IH.
  pose proof (append_nonempty s _ Ht) as Hne.
  by destruct (s ++ trimEnd t).
Qed.

(** Trimming the start leaves a suffix that starts with no white space. *)
Lemma trimStart_append (s t : string) (c : ascii) (t' : string) :
  t = String c t' → is_whitespace c = false →
  ∃ s', trimStart (s ++ t) = s' ++ t.
Proof.
  intros -> Hc. induction s as [|d s IH].
  - exists "". rewrite !append_nil. simpl. by rewrite Hc.
  - rewrite append_cons. simpl. destruct (is_whitespace d); [exact IH |].
    exists (String d s). by rewrite append_cons.
Qed.

Lemma trimStart_head (s : string) (c : ascii) (rest : string) :
  trimStart s = String c rest → is_whitespace c = false.
Proof.
  induction s as [|d s IH]; simpl; [done |].
  destruct (is_whitespace d) eqn:Hd; [exact IH |]. by intros [= <- _].
Qed.

Lemma trimEnd_head (c : ascii) (s : string) :
  is_whitespace c = false → ∃ rest, trimEnd (String c s) = String c rest.
Proof.
  intros Hc. simpl. rewrite Hc. destruct (trimEnd s); by eexists.
Qed.

Lemma trim_head (s : string) (c : ascii) (rest : string) :
  trim s = String c rest → is_whitespace c = false.
Proof.
  unfold trim. destruct (trimStart s) as [|d s'] eqn:Hstart; [done |].
  pose proof (trimStart_head _ _ _ Hstart) as Hd.
  destruct (trimEnd_head d s' Hd) as [rest' ->]. by intros [= <- _].
Qed.

(** The classes joined: something, then the base class. *)
Lemma joined_classes (a b : string) :
  ∃ pre, join " " (filter (λ s, truthy_string s = true) [a; b; "pure-nav-link"])
         = pre ++ "pure-nav-link".
Proof.
  destruct a as [|c a], b as [|d b].
  - by exists "".
  - exists (String d b ++ " "). rewrite append_assoc. reflexivity.
  - exists (String c a ++ " "). rewrite append_assoc. reflexivity.
  - exists (String c a ++ " " ++ String d b ++ " "). rewrite !append_assoc. reflexivity.
Qed.

(** X14.  The class name of the rendered element always ends with the base
    class ['pure-nav-link'], never starts with white space, and is exactly the
    base class when the link has neither a [className] nor a class for its
    state. *)
Theorem computedClassName_base_class (p : Props) (isActive : bool) :
  (∃ pre, computedClassName p isActive = pre ++ "pure-nav-link")
  ∧ (∀ c rest, computedClassName p isActive = String c rest → is_whitespace c = false)
  ∧ (default "" (className p) = "" →
     (if isActive then default "active" (activeClassName p)
      else default "" (inActiveClassName p)) = "" →
     computedClassName p isActive = "pure-nav-link").
Proof.
  unfold computedClassName. split_and!.
  - destruct (joined_classes (default "" (className p))
                (if isActive then default "active" (activeClassName p)
                 else default "" (inActiveClassName p))) as [pre ->].
    unfold trim.
    destruct (trimStart_append pre "pure-nav-link" "p" "ure-nav-link" eq_refl eq_refl)
      as [pre' ->].
    exists pre'. by rewrite trimEnd_append.
  - intros c rest. apply trim_head.
  - by intros -> ->.
Qed.

Lemma computedClassName_base_class_witness :
  computedClassName NavSamples.home_link true = "pure-nav-link".
Proof.
  destruct (computedClassName_base_class NavSamples.home_link true) as (_ & _ & Hbare).
  apply Hbare; reflexivity.
Defined.

Example computedClassName_samples :
  trim (join " " (filter (λ s, truthy_string s = true) ["nav"; "active"; "pure-nav-link"]))
  = "nav active pure-nav-link"
  ∧ trim (join " " (filter (λ s, truthy_string s = true) [" nav "; ""; "pure-nav-link"]))
    = "nav  pure-nav-link".
Proof. split; reflexivity. Qed.

End ClassName.

(** ** The rendered element *)

Section Rendering.
Import NavPlus.

Lemma computedAria_other (p : Props) (isActive : bool) (k : string) :
  k ≠ "aria-current" → k ≠ "aria-disabled" →
  computedAria p isActive !! k = default ∅ (aria p) !! k.
Proof.
  intros Hcurrent Hdisabled. unfold computedAria.
  destruct (default false (disabled p)), isActive;
    by rewrite ?lookup_insert_ne.
Qed.

Lemma commonProps_lookup (p : Props) (isActive isPrefetched : bool) (k : string) :
  commonProps p isActive isPrefetched !! k
  = match restProps p !! k with
    | Some v => Some (Plain v)
    | None =>
        match computedAria p isActive !! k with
        | Some v => Some (Plain v)
        | None => own_props p isActive isPrefetched !! k
        end
    end.
Proof.
  unfold commonProps. rewrite !lookup_union, !lookup_fmap.
  destruct (restProps p !! k), (computedAria p isActive !! k),
    (own_props p isActive isPrefetched !! k); reflexivity.
Qed.

Lemma commonProps_not_spread (p : Props) (isActive isPrefetched : bool) (k : string) :
  Terms.not_spread k p → k ≠ "aria-current" → k ≠ "aria-disabled" →
  commonProps p isActive isPrefetched !! k = own_props p isActive isPrefetched !! k.
Proof.
  intros (Hrest & Haria & _) Hcurrent Hdisabled.
  by rewrite commonProps_lookup, Hrest, computedAria_other, Haria.
Qed.

(** The branch of [render] taken. *)
Lemma render_cases (p : Props) (isActive isPrefetched : bool) :
  let el := render p isActive isPrefetched in
  let common := commonProps p isActive isPrefetched in
  (∃ c, as_ p = Some c ∧ c ≠ "" ∧ tag el = Custom c
        ∧ attrs el = (if Terms.followable p
                      then {["href" := Plain (Str (to p))]} else ∅) ∪ common)
  ∨ (Terms.followable p = false ∧ tag el = Span ∧ attrs el = common)
  ∨ (Terms.followable p = true ∧ default false (isExternal p) = true ∧ tag el = Anchor
     ∧ attrs el = common ∪ list_to_map [ ("href", Plain (Str (to p)));
                                         ("target", Plain (Str "_blank"));
                                         ("rel", Plain (Str "noopener noreferrer")) ])
  ∨ (Terms.followable p = true ∧ default false (isExternal p) = false
     ∧ tag el = RouterLink
     ∧ attrs el = (Plain <$> default ∅ (linkProps p)) ∪ common
                  ∪ list_to_map [ ("to", Plain (Str (to p)));
                                  ("replace", Plain (Boolean (default false (replace p)))) ]).
Proof.
  intros el common. subst el common. unfold render, Terms.followable.
  destruct (match as_ p with
            | Some c => if truthy_string c then Some c else None
            | None => None
            end) as [c|] eqn:Has.
  { left. exists c. destruct (as_ p) as [c'|]; [| done].
    destruct c'; [done |]. by injection Has as <-. }
  right.
  destruct (default true (redirection p)), (default false (disabled p)); simpl;
    try (by left).
  right. destruct (default false (isExternal p)); [by left | by right].
Qed.

(** X15.  When the caller's spreads name neither [href] nor [to], the
    rendered element carries a destination exactly if the link can be followed
    (redirection on, not disabled), and then it is the [to] prop; a link that
    cannot be followed is rendered as a [span], or as the custom component
    without [href]. *)
Theorem render_destination (p : Props) (isActive isPrefetched : bool) :
  Terms.not_spread "href" p → Terms.not_spread "to" p →
  let el := render p isActive isPrefetched in
  Terms.destination el
  = (if Terms.followable p then Some (Plain (Str (to p))) else None)
  ∧ (Terms.followable p = false → tag el = Span ∨ ∃ c, tag el = Custom c).
Proof.
  intros Hhref Hto el.
  pose proof (commonProps_not_spread p isActive isPrefetched "href" Hhref) as Hc1.
  pose proof (commonProps_not_spread p isActive isPrefetched "to" Hto) as Hc2.
  assert (commonProps p isActive isPrefetched !! "href" = None) as Hno_href
    by (by rewrite Hc1).
  assert (commonProps p isActive isPrefetched !! "to" = None) as Hno_to
    by (by rewrite Hc2).
  unfold Terms.destination.
  destruct (render_cases p isActive isPrefetched)
    as [(c & _ & _ & Htag & Hattrs) | [(Hf & Htag & Hattrs) | [(Hf & _ & Htag & Hattrs)
       | (Hf & _ & Htag & Hattrs)]]];
    fold el in Htag, Hattrs; rewrite Hattrs, ?Hf.
  - split; [| intros _; right; by exists c].
    destruct (Terms.followable p).
    + by rewrite lookup_union, lookup_singleton_eq, Hno_href.
    + by rewrite !lookup_union, !lookup_empty, Hno_href, Hno_to.
  - split; [| by left]. by rewrite Hno_href, Hno_to.
  - split; [| done]. by rewrite lookup_union, Hno_href.
  - split; [| done]. destruct Hhref as (_ & _ & Hlink_href). destruct Hto as (_ & _ & Hlink_to).
    by rewrite !lookup_union, !lookup_fmap, Hlink_href, Hlink_to, Hno_href, Hno_to.
Qed.

Lemma not_spread_nothing (k : string) (p : Props) :
  restProps p = ∅ → aria p = None → linkProps p = None → Terms.not_spread k p.
Proof. intros Hrest Haria Hlink. unfold Terms.not_spread. by rewrite Hrest, Haria, Hlink. Qed.

Lemma render_destination_witness :
  Terms.destination (render NavSamples.disabled_link false false) = None
  ∧ Terms.destination (render NavSamples.home_link false false) = Some (Plain (Str "/home")).
Proof.
  split.
  - apply (render_destination NavSamples.disabled_link false false);
      by apply not_spread_nothing.
  - apply (render_destination NavSamples.home_link false false);
      by apply not_spread_nothing.
Defined.

(** X16.  What the caller passes among the rest props wins over everything
    the component computes for the element ([id], [className], the handlers,
    [style], the [data-] and [aria-] attributes, [target], [rel]): a rest prop
    reaches the rendered element with the caller's value, unless it is the
    [href] of a custom component or [linkProps] names it too. *)
Theorem rest_props_win (p : Props) (isActive isPrefetched : bool) (k : string) (v : Value) :
  restProps p !! k = Some v → k ≠ "href" → default ∅ (linkProps p) !! k = None →
  attrs (render p isActive isPrefetched) !! k = Some (Plain v).
Proof.
  intros Hrest Hhref Hlink.
  assert (commonProps p isActive isPrefetched !! k = Some (Plain v)) as Hcommon
    by (by rewrite commonProps_lookup, Hrest).
  destruct (render_cases p isActive isPrefetched)
    as [(c & _ & _ & _ & ->) | [(_ & _ & ->) | [(_ & _ & _ & ->) | (_ & _ & _ & ->)]]].
  - rewrite lookup_union.
    assert ((if Terms.followable p
             then ({["href" := Plain (Str (to p))]} : gmap string PropValue)
             else ∅) !! k = None) as ->.
    { destruct (Terms.followable p); [by apply lookup_singleton_ne | apply lookup_empty]. }
    by rewrite Hcommon.
  - exact Hcommon.
  - by apply lookup_union_Some_l.
  - apply lookup_union_Some_l. rewrite lookup_union_r; [exact Hcommon |].
    by rewrite lookup_fmap, Hlink.
Qed.

Lemma rest_props_win_witness :
  attrs (render NavSamples.watched_link false false) !! "onMouseEnter"
  = Some (Plain (Fn NavSamples.on_event)).
Proof.
  apply (rest_props_win NavSamples.watched_link false false "onMouseEnter");
    [reflexivity | discriminate | reflexivity].
Defined.

(** X17.  An external link that can be followed and names no custom
    component is rendered as an anchor to [to]; where the caller's spreads are
    silent it opens in a new tab ([target='_blank']) and carries
    [rel='noopener noreferrer']. *)
Theorem external_link_anchor (p : Props) (isActive isPrefetched : bool) :
  isExternal p = Some true → Terms.followable p = true →
  (as_ p = None ∨ as_ p = Some "") →
  let el := render p isActive isPrefetched in
  tag el = Anchor
  ∧ (Terms.not_spread "href" p → attrs el !! "href" = Some (Plain (Str (to p))))
  ∧ (Terms.not_spread "target" p → attrs el !! "target" = Some (Plain (Str "_blank")))
  ∧ (Terms.not_spread "rel" p → attrs el !! "rel" = Some (Plain (Str "noopener noreferrer"))).
Proof.
  intros Hexternal Hfollow Has el. subst el.
  destruct (render_cases p isActive isPrefetched)
    as [(c & Hc & Hne & _) | [(Hf & _) | [(_ & _ & Htag & Hattrs) | (_ & Hext & _)]]].
  - exfalso. destruct Has as [Has | Has]; rewrite Has in Hc; [done |].
    by injection Hc as <-.
  - congruence.
  - split; [exact Htag |]. rewrite Hattrs.
    split_and!; intros Hk; rewrite lookup_union,
      (commonProps_not_spread _ _ _ _ Hk) by done; reflexivity.
  - rewrite Hexternal in Hext. discriminate Hext.
Qed.

Lemma external_link_anchor_witness :
  tag (render NavSamples.external_link false false) = Anchor
  ∧ attrs (render NavSamples.external_link false false) !! "rel"
    = Some (Plain (Str "noopener noreferrer")).
Proof.
  destruct (external_link_anchor NavSamples.external_link false false)
    as (Htag & _ & _ & Hrel); [reflexivity | reflexivity | by left |].
  split; [exact Htag |]. apply Hrel. by apply not_spread_nothing.
Defined.

End Rendering.

(** ** Navigation: the handlers and the navigation timer *)

Section Navigation.
Import NavPlus NavPlusHandlers.
Variable host : Prefetch.Host.

Lemma no_navigation_refl (st : LinkState) : Terms.no_navigation st st.
Proof. by repeat split. Qed.

Lemma no_navigation_trans (st1 st2 st3 : LinkState) :
  Terms.no_navigation st1 st2 → Terms.no_navigation st2 st3 → Terms.no_navigation st1 st3.
Proof.
  intros (H1 & H2 & H3 & H4) (H1' & H2' & H3' & H4').
  repeat split; congruence.
Qed.

Lemma navigations_app (log1 log2 : list Happening) :
  Terms.navigations (log1 ++ log2)
  = (Terms.navigations log1 ++ Terms.navigations log2)%list.
Proof. apply filter_app. Qed.

Lemma record_no_navigation (h : Happening) (st : LinkState) :
  is_navigation h = false → Terms.no_navigation st (record h st).
Proof.
  intros Hh. repeat split. simpl. rewrite navigations_app.
  unfold Terms.navigations at 2. rewrite filter_cons, filter_nil.
  destruct (decide _) as [Hyes|]; [congruence | by rewrite app_nil_r].
Qed.

Lemma with_prefetchSession_no_navigation (s : UsePrefetch.Session) (st : LinkState) :
  Terms.no_navigation st (with_prefetchSession s st).
Proof. by repeat split. Qed.

Lemma call_handler_no_navigation (h : UserHandler) (e : bool) (st : LinkState) :
  Terms.no_navigation st (after (call_handler h e st))
  ∧ prefetchSession (after (call_handler h e st)) = prefetchSession st.
Proof.
  unfold call_handler. destruct (handler_run h); simpl;
    (split; [by apply record_no_navigation | done]).
Qed.

Lemma call_if_given_no_navigation (v : option Value) (e : bool) (st : LinkState) :
  Terms.no_navigation st (after (call_if_given v e st))
  ∧ prefetchSession (after (call_if_given v e st)) = prefetchSession st.
Proof.
  unfold call_if_given.
  destruct v as [[| | | h |]|]; try apply call_handler_no_navigation;
    repeat case_match; simpl; (split; [apply no_navigation_refl | done]).
Qed.

Lemma no_navigation_ok (st st' : LinkState) :
  Terms.no_navigation st st' → Terms.navigation_ok st → Terms.navigation_ok st'.
Proof.
  intros (Href & Htable & _) Hok. unfold Terms.navigation_ok. by rewrite Href, Htable.
Qed.

(** Clearing the timer of the ref leaves no navigation timer armed. *)
Lemma clearNavigationTimeout_fields (st : LinkState) :
  Terms.navigation_ok st →
  navigationTimers (clearNavigationTimeout st) = ∅
  ∧ happened (clearNavigationTimeout st) = happened st
  ∧ nextNavigationHandle (clearNavigationTimeout st) = nextNavigationHandle st
  ∧ prefetchSession (clearNavigationTimeout st) = prefetchSession st.
Proof.
  intros [Hempty | (h & task & Href & Hone)]; unfold clearNavigationTimeout.
  - destruct (navigationTimeoutRef st); simpl; rewrite ?Hempty, ?delete_empty; done.
  - rewrite Href. simpl. by rewrite Hone, delete_singleton_eq.
Qed.

(** What [navigateWithDelay] does, by the [navigate] at hand and the delay. *)
Lemma navigateWithDelay_cases (p : Props) (context : NavContext.NavLinkContextValue)
    (target : string) (shouldReplace : bool) (st : LinkState) :
  Terms.navigation_ok st →
  let st' := (navigateWithDelay p context target shouldReplace st).1 in
  prefetchSession st' = prefetchSession st
  ∧ match navigate_of p context with
    | None => st' = st
    | Some f =>
        match positive_delay (navigationDelay p) with
        | Some d =>
            happened st' = happened st
            ∧ navigationTimeoutRef st' = Some (nextNavigationHandle st)
            ∧ navigationTimers st'
              = {[nextNavigationHandle st :=
                    {| task_navigate := f; task_target := target;
                       task_replace := shouldReplace; task_delay := d |}]}
        | None =>
            happened st' = (happened st ++ [Navigated target shouldReplace])%list
            ∧ navigationTimers st' = ∅
        end
    end.
Proof.
  intros Hok st'. subst st'. unfold navigateWithDelay.
  destruct (navigate_of p context) as [f|]; [| done].
  destruct (clearNavigationTimeout_fields st Hok) as (Hempty & Hlog & Hnext & Hsession).
  destruct (positive_delay (navigationDelay p)) as [d|]; simpl.
  - by rewrite Hempty, insert_empty, Hlog, Hnext, Hsession.
  - by rewrite Hempty, Hlog, Hsession.
Qed.

Lemma navigateWithDelay_ok (p : Props) (context : NavContext.NavLinkContextValue)
    (target : string) (shouldReplace : bool) (st : LinkState) :
  Terms.navigation_ok st →
  Terms.navigation_ok (navigateWithDelay p context target shouldReplace st).1.
Proof.
  intros Hok.
  destruct (navigateWithDelay_cases p context target shouldReplace st Hok) as [_ Hcases].
  destruct (navigate_of p context) as [f|]; [| by rewrite Hcases].
  destruct (positive_delay (navigationDelay p)) as [d|].
  - destruct Hcases as (_ & Href & Htable). right. eauto.
  - destruct Hcases as (_ & Htable). by left.
Qed.

Lemma navigateWithDelay_pair (p : Props) (context : NavContext.NavLinkContextValue)
    (target : string) (shouldReplace : bool) (st : LinkState) :
  ∃ err, navigateWithDelay p context target shouldReplace st
         = ((navigateWithDelay p context target shouldReplace st).1, err).
Proof. destruct (navigateWithDelay _ _ _ _ _) as [st' err]. by exists err. Qed.

(** The two ways a click or a hover ends: without touching navigation, or
    through [navigateWithDelay] after [preventDefault]. *)
Lemma handleClick_cases (p : Props) (context : NavContext.NavLinkContextValue)
    (e : bool) (st : LinkState) :
  (Terms.no_navigation st (after (handleClick p context e st))
   ∧ prefetchSession (after (handleClick p context e st)) = prefetchSession st)
  ∨ (can_navigate p context = true ∧ default false (isExternal p) = false
     ∧ ∃ st1, Terms.no_navigation st st1 ∧ prefetchSession st1 = prefetchSession st
              ∧ after (handleClick p context e st)
                = (navigateWithDelay p context (to p) (default false (replace p)) st1).1).
Proof.
  unfold handleClick, can_navigate.
  destruct (default false (disabled p)); simpl.
  { left. split; [by apply record_no_navigation | done]. }
  set (clicked := match onClick p with
                  | Some h => call_handler h e st
                  | None => {| after := st; defaultPrevented := e; thrown := None |}
                  end).
  assert (Terms.no_navigation st (after clicked)
          ∧ prefetchSession (after clicked) = prefetchSession st) as [Hquiet Hsession].
  { subst clicked. destruct (onClick p); [apply call_handler_no_navigation |].
    split; [apply no_navigation_refl | done]. }
  destruct (thrown clicked); [by left |].
  destruct (default false (isExternal p)); simpl; [by left |].
  destruct (default true (redirection p)); simpl; [| by left].
  destruct (bool_decide (is_Some (navigate_of p context))); simpl; [| by left].
  destruct (defaultPrevented clicked); simpl; [by left |].
  right. split_and!; try done.
  exists (record PreventDefault (after clicked)). split_and!.
  - eapply no_navigation_trans; [exact Hquiet | by apply record_no_navigation].
  - exact Hsession.
  - destruct (navigateWithDelay_pair p context (to p) (default false (replace p))
                (record PreventDefault (after clicked))) as [err ->]. done.
Qed.

Lemma handleMouseEnter_cases (p : Props) (context : NavContext.NavLinkContextValue)
    (e : bool) (st : LinkState) :
  let hovered :=
    UsePrefetch.handlePrefetch (to p) (prefetch_options p context) (prefetchSession st) in
  (Terms.no_navigation st (after (handleMouseEnter p context e st))
   ∧ prefetchSession (after (handleMouseEnter p context e st)) = hovered)
  ∨ (can_navigate p context = true
     ∧ ∃ st1 st2, Terms.no_navigation st st1
                  ∧ st2 = (navigateWithDelay p context (to p) (default false (replace p))
                             st1).1
                  ∧ Terms.no_navigation st2 (after (handleMouseEnter p context e st))
                  ∧ prefetchSession (after (handleMouseEnter p context e st)) = hovered).
Proof.
  intros hovered. unfold handleMouseEnter, can_navigate. fold hovered.
  set (st0 := with_prefetchSession hovered st).
  assert (Terms.no_navigation st st0) as Hst0
    by apply with_prefetchSession_no_navigation.
  destruct (String.eqb (default "click" (triggerEvent p)) "hover"); simpl.
  2:{ left. destruct (call_if_given_no_navigation (restProps p !! "onMouseEnter") e st0)
        as [Hquiet ->].
      split; [by eapply no_navigation_trans | done]. }
  destruct (default false (disabled p)); simpl.
  { left. destruct (call_if_given_no_navigation (restProps p !! "onMouseEnter") e st0)
      as [Hquiet ->].
    split; [by eapply no_navigation_trans | done]. }
  destruct (default true (redirection p)); simpl.
  2:{ left. destruct (call_if_given_no_navigation (restProps p !! "onMouseEnter") e st0)
        as [Hquiet ->].
      split; [by eapply no_navigation_trans | done]. }
  destruct (bool_decide (is_Some (navigate_of p context))); simpl.
  2:{ left. destruct (call_if_given_no_navigation (restProps p !! "onMouseEnter") e st0)
        as [Hquiet ->].
      split; [by eapply no_navigation_trans | done]. }
  right. split; [done |].
  destruct (navigateWithDelay_pair p context (to p) (default false (replace p))
              (record PreventDefault st0)) as [err Hpair].
  rewrite Hpair.
  set (st2 := (navigateWithDelay p context (to p) (default false (replace p))
                 (record PreventDefault st0)).1).
  exists (record PreventDefault st0), st2. split_and!; [| done | |].
  - eapply no_navigation_trans; [exact Hst0 | by apply record_no_navigation].
  - destruct err; simpl; [apply no_navigation_refl |].
    apply call_if_given_no_navigation.
  - assert (prefetchSession st2 = hovered) as Hsession.
    { subst st2. unfold navigateWithDelay.
      destruct (navigate_of p context); [| done].
      destruct (positive_delay (navigationDelay p)); simpl;
        unfold clearNavigationTimeout; by destruct (navigationTimeoutRef _). }
    destruct err; simpl; [done |].
    by destruct (call_if_given_no_navigation (restProps p !! "onMouseEnter") true st2)
      as [_ ->].
Qed.

Lemma handleMouseLeave_no_navigation (p : Props) (e : bool) (st : LinkState) :
  Terms.no_navigation st (after (handleMouseLeave p e st))
  ∧ prefetchSession (after (handleMouseLeave p e st))
    = UsePrefetch.cancelPrefetch (prefetchSession st).
Proof.
  unfold handleMouseLeave.
  destruct (call_if_given_no_navigation (restProps p !! "onMouseLeave") e
              (with_prefetchSession (UsePrefetch.cancelPrefetch (prefetchSession st)) st))
    as [Hquiet ->].
  split; [| done].
  eapply no_navigation_trans; [apply with_prefetchSession_no_navigation | exact Hquiet].
Qed.

(** What a delivered event runs. *)
Lemma deliver_cases (p : Props) (context : NavContext.NavLinkContextValue)
    (ev : DomEvent) (e : bool) (st : LinkState) :
  after (deliver host p context ev e st) = st
  ∨ deliver host p context ev e st = handleClick p context e st
  ∨ deliver host p context ev e st = handleMouseEnter p context e st
  ∨ deliver host p context ev e st = handleMouseLeave p e st
  ∨ ∃ h, deliver host p context ev e st = call_handler h e st.
Proof.
  unfold deliver.
  destruct (NavPlus host p context st) as [tr [[el|]|err]]; try by left.
  destruct (attrs el !! handler_prop ev) as [[[| | | h |] | [] |]|]; try by left.
  - do 4 right. by exists h.
  - right; by left.
  - do 2 right; by left.
  - do 3 right; by left.
Qed.

Lemma deliver_ok (p : Props) (context : NavContext.NavLinkContextValue)
    (ev : DomEvent) (e : bool) (st : LinkState) :
  Terms.navigation_ok st → Terms.navigation_ok (after (deliver host p context ev e st)).
Proof.
  intros Hok.
  destruct (deliver_cases p context ev e st) as [-> | [-> | [-> | [-> | [h ->]]]]].
  - done.
  - destruct (handleClick_cases p context e st)
      as [[Hquiet _] | (_ & _ & st1 & Hquiet & _ & ->)].
    + by eapply no_navigation_ok.
    + apply navigateWithDelay_ok. by eapply no_navigation_ok.
  - destruct (handleMouseEnter_cases p context e st)
      as [[Hquiet _] | (_ & st1 & st2 & Hquiet & -> & Hquiet' & _)].
    + by eapply no_navigation_ok.
    + eapply no_navigation_ok; [exact Hquiet' |].
      apply navigateWithDelay_ok. by eapply no_navigation_ok.
  - eapply no_navigation_ok; [apply handleMouseLeave_no_navigation | done].
  - eapply no_navigation_ok; [apply call_handler_no_navigation | done].
Qed.

Lemma run_link_cons (st : LinkState) (ev : LinkEvent) (evs : list LinkEvent) :
  run host st (ev :: evs) = run host (step host st ev) evs.
Proof. reflexivity. Qed.

Lemma fireNavigation_cases (h : positive) (st : LinkState) :
  Terms.navigation_ok st →
  fireNavigation h st = st
  ∨ ∃ task, navigationTimers st = {[h := task]}
            ∧ navigationTimers (fireNavigation h st) = ∅
            ∧ happened (fireNavigation h st)
              = (happened st ++ [Navigated (task_target task) (task_replace task)])%list
            ∧ prefetchSession (fireNavigation h st) = prefetchSession st.
Proof.
  intros Hok. unfold fireNavigation.
  destruct (navigationTimers st !! h) as [task|] eqn:Hh; [| by left].
  right. exists task.
  destruct Hok as [Hempty | (h' & task' & _ & Hone)].
  { by rewrite Hempty, lookup_empty in Hh. }
  rewrite Hone in Hh. apply lookup_singleton_Some in Hh as [-> ->].
  simpl. by rewrite Hone, delete_singleton_eq.
Qed.

Lemma unmount_fields (st : LinkState) :
  Terms.navigation_ok st →
  navigationTimers (unmount st) = ∅
  ∧ happened (unmount st) = happened st
  ∧ prefetchSession (unmount st) = UsePrefetch.unmount (prefetchSession st).
Proof.
  intros Hok. unfold unmount. simpl.
  by destruct (clearNavigationTimeout_fields st Hok) as (-> & -> & _ & _).
Qed.

Lemma step_link_ok (st : LinkState) (ev : LinkEvent) :
  Terms.navigation_ok st → Terms.navigation_ok (step host st ev).
Proof.
  intros Hok. destruct ev as [p context ev e | h | h |]; simpl.
  - by apply deliver_ok.
  - destruct (fireNavigation_cases h st Hok) as [-> | (task & _ & Hempty & _)]; [done |].
    by left.
  - eapply no_navigation_ok; [apply with_prefetchSession_no_navigation | done].
  - left. by destruct (unmount_fields st Hok) as [-> _].
Qed.

Lemma run_link_ok (evs : list LinkEvent) (st : LinkState) :
  Terms.navigation_ok st → Terms.navigation_ok (run host st evs).
Proof.
  revert st. induction evs as [|ev evs IH]; intros st Hok; [done |].
  rewrite run_link_cons. apply IH. by apply step_link_ok.
Qed.

Lemma reachable_link_ok (evs : list LinkEvent) : Terms.navigation_ok (run host mounted evs).
Proof. apply run_link_ok. by left. Qed.

(** The prefetch session inside a link is a session of [usePrefetch]. *)
Lemma step_link_session_ok (st : LinkState) (ev : LinkEvent) :
  Terms.navigation_ok st → Spec.session_ok (prefetchSession st) →
  Spec.session_ok (prefetchSession (step host st ev)).
Proof.
  intros Hnav Hok. destruct ev as [p context ev e | h | h |]; simpl.
  - destruct (deliver_cases p context ev e st) as [-> | [-> | [-> | [-> | [h ->]]]]].
    + done.
    + destruct (handleClick_cases p context e st)
        as [[_ ->] | (_ & _ & st1 & Hquiet & Hsession & ->)]; [done |].
      destruct (navigateWithDelay_cases p context (to p) (default false (replace p)) st1)
        as [-> _]; [by eapply no_navigation_ok | by rewrite Hsession].
    + destruct (handleMouseEnter_cases p context e st)
        as [[_ ->] | (_ & st1 & st2 & _ & _ & _ & ->)]; by apply handlePrefetch_ok.
    + destruct (handleMouseLeave_no_navigation p e st) as [_ ->].
      by apply clear_pending_ok.
    + by destruct (call_handler_no_navigation h e st) as [_ ->].
  - destruct (fireNavigation_cases h st Hnav) as [-> | (task & _ & _ & _ & ->)]; done.
  - by apply fire_ok.
  - by apply clear_pending_ok.
Qed.

Lemma reachable_link_session_ok (evs : list LinkEvent) :
  Spec.session_ok (prefetchSession (run host mounted evs)).
Proof.
  assert (∀ st, Terms.navigation_ok st → Spec.session_ok (prefetchSession st) →
                Spec.session_ok (prefetchSession (run host st evs))) as Hrun.
  { induction evs as [|ev evs IH]; intros st Hnav Hok; [done |].
    rewrite run_link_cons.
    apply IH; [by apply step_link_ok | by apply step_link_session_ok]. }
  apply Hrun; [by left | apply mount_ok].
Qed.

(** X18.  In any history of a link, at most one navigation timer is armed,
    and it is the one the ref points to; after the unmount cleanup neither a
    navigation timer nor a prefetch timer is armed, and whatever timers the
    host fires afterwards, nothing is navigated and nothing is dispatched. *)
Theorem navigation_timer_discipline (evs : list LinkEvent) :
  let st := run host mounted evs in
  (size (navigationTimers st) ≤ 1)%nat
  ∧ (∀ h, is_Some (navigationTimers st !! h) → navigationTimeoutRef st = Some h)
  ∧ navigationTimers (unmount st) = ∅
  ∧ UsePrefetch.timers (prefetchSession (unmount st)) = ∅
  ∧ (∀ h, fireNavigation h (unmount st) = unmount st)
  ∧ (∀ h, UsePrefetch.fire host h (prefetchSession (unmount st))
          = prefetchSession (unmount st)).
Proof.
  intros st. pose proof (reachable_link_ok evs : Terms.navigation_ok st) as Hnav.
  pose proof (reachable_link_session_ok evs : Spec.session_ok (prefetchSession st)) as Hok.
  destruct (unmount_fields st Hnav) as (Hempty & _ & Hsession).
  assert (UsePrefetch.timers (prefetchSession (unmount st)) = ∅) as Hidle.
  { rewrite Hsession. by apply clear_pending_timers. }
  split_and!.
  - destruct Hnav as [-> | (h & task & _ & ->)].
    + rewrite map_size_empty. lia.
    + by rewrite map_size_singleton.
  - intros h [task Hh]. destruct Hnav as [Hnone | (h' & task' & Href & Hone)].
    + by rewrite Hnone, lookup_empty in Hh.
    + rewrite Hone in Hh. by apply lookup_singleton_Some in Hh as [-> _].
  - exact Hempty.
  - exact Hidle.
  - intros h. unfold fireNavigation. by rewrite Hempty, lookup_empty.
  - intros h. unfold UsePrefetch.fire. by rewrite Hidle, lookup_empty.
Qed.

End Navigation.

Lemma navigation_timer_discipline_witness :
  let st := NavPlusHandlers.run Samples.dev_host NavPlusHandlers.mounted
              [NavPlusHandlers.Delivered NavSamples.slow_link NavContext.NavLinkContext
                 NavPlusHandlers.Click false] in
  NavPlusHandlers.navigationTimeoutRef st = Some 1%positive.
Proof.
  intros st.
  destruct (navigation_timer_discipline Samples.dev_host
              [NavPlusHandlers.Delivered NavSamples.slow_link NavContext.NavLinkContext
                 NavPlusHandlers.Click false])
    as (_ & Href & _).
  apply Href.
  by exists {| NavPlusHandlers.task_navigate := NavSamples.go;
               NavPlusHandlers.task_target := "/home";
               NavPlusHandlers.task_replace := false;
               NavPlusHandlers.task_delay := 300 |}.
Defined.

Section NavigationFacts.
Import NavPlus NavPlusHandlers.
Variable host : Prefetch.Host.

Lemma deliver_cannot_navigate (p : Props) (context : NavContext.NavLinkContextValue)
    (ev : DomEvent) (e : bool) (st : LinkState) :
  can_navigate p context = false →
  Terms.no_navigation st (after (deliver host p context ev e st)).
Proof.
  intros Hcannot.
  destruct (deliver_cases host p context ev e st) as [-> | [-> | [-> | [-> | [h ->]]]]].
  - apply no_navigation_refl.
  - destruct (handleClick_cases p context e st) as [[Hquiet _] | (Hcan & _)];
      [done | congruence].
  - destruct (handleMouseEnter_cases p context e st) as [[Hquiet _] | (Hcan & _)];
      [done | congruence].
  - apply handleMouseLeave_no_navigation.
  - apply call_handler_no_navigation.
Qed.

(** X19.  Navigation needs a link that can navigate: in a history whose
    events were all delivered in renders where the link is disabled, or
    redirection is off, or no [navigate] function is at hand (neither as a
    prop nor on the router context), [navigate] is never called and no
    navigation timer is ever armed. *)
Theorem no_navigation_without_means (evs : list LinkEvent) :
  Terms.every_render (λ p context, can_navigate p context = false) evs →
  let st := run host mounted evs in
  Terms.navigations (happened st) = [] ∧ navigationTimers st = ∅.
Proof.
  intros Hall.
  assert (∀ st, Terms.navigations (happened st) = [] ∧ navigationTimers st = ∅ →
                Terms.navigations (happened (run host st evs)) = []
                ∧ navigationTimers (run host st evs) = ∅) as Hrun.
  { induction evs as [|ev evs IH]; intros st Hst; [done |].
    rewrite run_link_cons. apply IH.
    { intros p context ev' e Hin. apply (Hall p context ev' e). by apply elem_of_cons; right. }
    destruct Hst as [Hlog Htable].
    destruct ev as [p context ev e | h | h |]; simpl.
    - destruct (deliver_cannot_navigate p context ev e st) as (_ & -> & _ & ->); [| done].
      apply (Hall p context ev e). apply list_elem_of_here.
    - unfold fireNavigation. by rewrite Htable, lookup_empty.
    - done.
    - unfold clearNavigationTimeout.
      destruct (navigationTimeoutRef st); simpl; by rewrite ?Htable, ?delete_empty. }
  by apply Hrun.
Qed.



(** X22.  Leaving the link with the pointer cancels a pending prefetch but
    not a pending navigation: a navigation timer that is armed when the mouse
    leaves is still armed afterwards, and when it fires the link navigates to
    the target it was armed for. *)
Theorem mouse_leave_keeps_navigation (evs : list LinkEvent) (p : Props) (e : bool)
    (h : positive) (task : NavTask) :
  let st := run host mounted evs in
  navigationTimers st !! h = Some task →
  let left := after (handleMouseLeave p e st) in
  UsePrefetch.timers (prefetchSession left) = ∅
  ∧ navigationTimers left !! h = Some task
  ∧ Terms.navigations (happened (fireNavigation h left))
    = (Terms.navigations (happened st)
       ++ [Navigated (task_target task) (task_replace task)])%list.
Proof.
  intros st Hh left.
  pose proof (reachable_link_ok host evs : Terms.navigation_ok st) as Hnav.
  pose proof (reachable_link_session_ok host evs : Spec.session_ok (prefetchSession st))
    as Hok.
  destruct (handleMouseLeave_no_navigation p e st) as [Hquiet Hsession].
  fold left in Hquiet, Hsession.
  pose proof Hquiet as (_ & Htable & _ & Hlog).
  split_and!.
  - rewrite Hsession. by apply clear_pending_timers.
  - by rewrite Htable.
  - destruct (fireNavigation_cases h left (no_navigation_ok _ _ Hquiet Hnav))
      as [Hsame | (task' & Hone & _ & -> & _)].
    + unfold fireNavigation in Hsame. rewrite Htable, Hh in Hsame.
      apply (f_equal happened) in Hsame. simpl in Hsame.
      apply (f_equal length) in Hsame. rewrite length_app in Hsame. simpl in Hsame. lia.
    + rewrite Htable in Hone. rewrite Hone in Hh.
      apply lookup_singleton_Some in Hh as [_ ->].
      rewrite navigations_app, Hlog. reflexivity.
Qed.

End NavigationFacts.

Section NavigationWitnesses.
Import NavPlus NavPlusHandlers.

Lemma no_navigation_without_means_witness :
  let st := run Samples.dev_host mounted
              [Delivered NavSamples.disabled_link NavContext.NavLinkContext Click false] in
  Terms.navigations (happened st) = [] ∧ navigationTimers st = ∅.
Proof.
  apply (no_navigation_without_means Samples.dev_host).
  intros p context ev e Hin. apply list_elem_of_singleton in Hin. by injection Hin as -> -> -> ->.
Defined.



Lemma mouse_leave_keeps_navigation_witness :
  let st := run Samples.dev_host mounted
              [Delivered NavSamples.slow_hover_link NavContext.NavLinkContext
                 MouseEnter false] in
  let left := after (handleMouseLeave NavSamples.slow_hover_link false st) in
  Terms.navigations (happened (fireNavigation 1%positive left)) = [Navigated "/home" false].
Proof.
  intros st left.
  destruct (mouse_leave_keeps_navigation Samples.dev_host
              [Delivered NavSamples.slow_hover_link NavContext.NavLinkContext
                 MouseEnter false]
              NavSamples.slow_hover_link false 1%positive
              {| task_navigate := NavSamples.go; task_target := "/home";
                 task_replace := false; task_delay := 300 |})
    as (_ & _ & Hfired); [reflexivity |].
  exact Hfired.
Defined.

End NavigationWitnesses.

(** ** The component as a whole *)

Section Component.
Import NavPlus NavPlusHandlers.

(** What [NavPlus] returns: nothing for an empty [to], the exception of the
    active-state decision, or the element for the active state it computed. *)
Lemma NavPlus_cases (host : Prefetch.Host) (p : Props)
    (context : NavContext.NavLinkContextValue) (st : LinkState) :
  (to p = "" ∧ (NavPlus host p context st).2 = Normal None)
  ∨ (to p ≠ ""
     ∧ match UseIsActive.useIsActive (to p) (isActive_options p context) with
       | Normal isActive =>
           NavPlus host p context st
           = ([], Normal (Some (render p isActive
                                  (UsePrefetch.isPrefetched (prefetchSession st)))))
       | Throw err => NavPlus host p context st = ([], Throw err)
       end).
Proof.
  unfold NavPlus. destruct (to p) as [|c rest]; simpl.
  - left. split; [done |]. by destruct (Prefetch.not_production host).
  - right. split; [done |].
    by destruct (UseIsActive.useIsActive _ _).
Qed.

Lemma handler_prop_not_href (ev : DomEvent) : handler_prop ev ≠ "href".
Proof. by destruct ev. Qed.

(** A prop the component sets itself reaches the element when the caller's
    spreads are silent about it. *)
Lemma attrs_own (p : Props) (isActive isPrefetched : bool) (k : string) (v : PropValue) :
  own_props p isActive isPrefetched !! k = Some v →
  Terms.not_spread k p → k ≠ "aria-current" → k ≠ "aria-disabled" → k ≠ "href" →
  attrs (render p isActive isPrefetched) !! k = Some v.
Proof.
  intros Hown Hsilent Hcurrent Hdisabled Hhref.
  assert (commonProps p isActive isPrefetched !! k = Some v) as Hcommon
    by (by rewrite commonProps_not_spread).
  destruct (render_cases p isActive isPrefetched)
    as [(c & _ & _ & _ & ->) | [(_ & _ & ->) | [(_ & _ & _ & ->) | (_ & _ & _ & ->)]]].
  - rewrite lookup_union_r; [done |].
    destruct (Terms.followable p); [by apply lookup_singleton_ne | apply lookup_empty].
  - done.
  - by apply lookup_union_Some_l.
  - apply lookup_union_Some_l. rewrite lookup_union_r; [done |].
    destruct Hsilent as (_ & _ & Hlink). by rewrite lookup_fmap, Hlink.
Qed.

(** X23.  A handler of the caller replaces the component's own.  When the
    rest props name [onMouseEnter] or [onMouseLeave] (and, for a [Link],
    [linkProps] does not name it again), the event runs the caller's function
    alone, if the value is one: the component's handler does not run, so no
    prefetch is scheduled or cancelled and nothing is navigated.  When the
    caller's spreads are silent about [onMouseEnter], the pointer entering a
    rendered link runs [handleMouseEnter], which calls [handlePrefetch]. *)
Theorem caller_handler_replaces_own (host : Prefetch.Host) (p : Props)
    (context : NavContext.NavLinkContextValue) (e : bool) (st : LinkState) :
  (∀ ev v,
     restProps p !! handler_prop ev = Some v →
     default ∅ (linkProps p) !! handler_prop ev = None →
     let d := deliver host p context ev e st in
     (after d = st ∨ ∃ h, v = Fn h ∧ d = call_handler h e st)
     ∧ prefetchSession (after d) = prefetchSession st
     ∧ Terms.no_navigation st (after d))
  ∧ (∀ isActive,
       Terms.not_spread "onMouseEnter" p → to p ≠ "" →
       UseIsActive.useIsActive (to p) (isActive_options p context) = Normal isActive →
       let d := deliver host p context MouseEnter e st in
       d = handleMouseEnter p context e st
       ∧ prefetchSession (after d)
         = UsePrefetch.handlePrefetch (to p) (prefetch_options p context)
             (prefetchSession st)).
Proof.
  split.
  - intros ev v Hrest Hlink d.
    assert (after d = st ∨ ∃ h, v = Fn h ∧ d = call_handler h e st) as Hran.
    { subst d. unfold deliver.
      destruct (NavPlus_cases host p context st) as [[_ Hnull] | [_ Hrendered]].
      { destruct (NavPlus host p context st) as [tr r]. simpl in Hnull. subst r. by left. }
      destruct (UseIsActive.useIsActive _ _) as [isActive|err]; rewrite Hrendered;
        [| by left].
      rewrite (rest_props_win p isActive _ (handler_prop ev) v Hrest
                 (handler_prop_not_href ev) Hlink).
      destruct v as [| | | h |]; try by left. right. by exists h. }
    split; [exact Hran |].
    destruct Hran as [-> | (h & _ & ->)].
    + split; [done | apply no_navigation_refl].
    + destruct (call_handler_no_navigation h e st) as [Hquiet Hsession]. done.
  - intros isActive Hsilent Hto Hactive d.
    assert (d = handleMouseEnter p context e st) as ->.
    { subst d. unfold deliver.
      destruct (NavPlus_cases host p context st) as [[Hempty _] | [_ Hrendered]]; [done |].
      rewrite Hactive in Hrendered. rewrite Hrendered.
      by rewrite (attrs_own p isActive _ "onMouseEnter" (Own HandleMouseEnter)). }
    split; [done |].
    by destruct (handleMouseEnter_cases p context e st)
      as [[_ ->] | (_ & st1 & st2 & _ & _ & _ & ->)].
Qed.

Lemma caller_handler_replaces_own_witness :
  prefetchSession
    (after (deliver Samples.dev_host NavSamples.watched_link NavContext.NavLinkContext
              MouseEnter false mounted))
  = prefetchSession mounted.
Proof.
  destruct (caller_handler_replaces_own Samples.dev_host NavSamples.watched_link
              NavContext.NavLinkContext false mounted) as [Hreplaced _].
  destruct (Hreplaced MouseEnter (Fn NavSamples.on_event) eq_refl eq_refl)
    as (_ & Hsession & _).
  exact Hsession.
Defined.

(** A hover on a link with prefetching on arms the prefetch timer; the same
    hover on a link whose caller passes [onMouseEnter] arms nothing. *)
Example hover_with_and_without_onMouseEnter :
  UsePrefetch.timers
    (prefetchSession
       (after (deliver Samples.dev_host NavSamples.home_link NavContext.NavLinkContext
                 MouseEnter false mounted)))
  = {[1%positive :=
        {| UsePrefetch.task_to := "/home";
           UsePrefetch.task_routerType := "react-router";
           UsePrefetch.task_isExternal := false;
           UsePrefetch.task_routerContext := None;
           UsePrefetch.task_customPrefetch := None;
           UsePrefetch.task_delay := 200 |}]}
  ∧ UsePrefetch.timers
      (prefetchSession
         (after (deliver Samples.dev_host NavSamples.watched_link NavContext.NavLinkContext
                   MouseEnter false mounted)))
    = ∅.
Proof. split; reflexivity. Qed.




Lemma routerContext_of_only (p : Props) (context context' : NavContext.NavLinkContextValue) :
  NavContext.routerContext context = NavContext.routerContext context' →
  routerContext_of p context = routerContext_of p context'.
Proof. intros H. unfold routerContext_of. by rewrite H. Qed.

Lemma handlers_only_routerContext (host : Prefetch.Host) (p : Props)
    (context context' : NavContext.NavLinkContextValue) :
  NavContext.routerContext context = NavContext.routerContext context' →
  (∀ st, NavPlus host p context st = NavPlus host p context' st)
  ∧ (∀ ev e st, deliver host p context ev e st = deliver host p context' ev e st).
Proof.
  intros H. pose proof (routerContext_of_only p _ _ H) as Hrc.
  assert (navigate_of p context = navigate_of p context') as Hnavigate
    by (unfold navigate_of; by rewrite Hrc).
  assert (isActive_options p context = isActive_options p context') as Hactive
    by (unfold isActive_options; by rewrite Hrc).
  assert (prefetch_options p context = prefetch_options p context') as Hprefetch
    by (unfold prefetch_options; by rewrite Hrc).
  assert (navigateWithDelay p context = navigateWithDelay p context') as Hdelay
    by (unfold navigateWithDelay; by rewrite Hnavigate).
  assert (handleClick p context = handleClick p context') as Hclick
    by (unfold handleClick; by rewrite Hnavigate, Hdelay).
  assert (handleMouseEnter p context = handleMouseEnter p context') as Henter
    by (unfold handleMouseEnter; by rewrite Hnavigate, Hprefetch, Hdelay).
  assert (∀ st, NavPlus host p context st = NavPlus host p context' st) as Hrender
    by (intros; unfold NavPlus; by rewrite Hactive).
  split; [exact Hrender |].
  intros ev e st. unfold deliver. by rewrite Hrender, Hclick, Henter.
Qed.

(** X25.  Of the context value, [NavPlus] reads the router context and
    nothing else: what it renders and what its handlers do is the same under
    two context values with the same [routerContext].  So the
    [prefetchDefaults] and the [activeMatchers] given to a [NavLinkProvider]
    have no effect on the links below it. *)
Theorem context_matters_by_routerContext (host : Prefetch.Host) (p : Props) :
  (∀ context context',
     NavContext.routerContext context = NavContext.routerContext context' →
     (∀ st, NavPlus host p context st = NavPlus host p context' st)
     ∧ (∀ ev e st, deliver host p context ev e st = deliver host p context' ev e st))
  ∧ (∀ hooks provider provider',
       NavContext.customRouterContext provider = NavContext.customRouterContext provider' →
       NavContext.useReactRouterContext provider
       = NavContext.useReactRouterContext provider' →
       (∀ st, NavPlus host p (NavContext.NavLinkProvider hooks provider) st
              = NavPlus host p (NavContext.NavLinkProvider hooks provider') st)
       ∧ (∀ ev e st,
            deliver host p (NavContext.NavLinkProvider hooks provider) ev e st
            = deliver host p (NavContext.NavLinkProvider hooks provider') ev e st)).
Proof.
  split; [apply handlers_only_routerContext |].
  intros hooks provider provider' Hcustom Hopt.
  apply handlers_only_routerContext. simpl.
  unfold NavContext.reactRouterContext. by rewrite Hcustom, Hopt.
Qed.

Lemma context_matters_by_routerContext_witness :
  NavPlus Samples.dev_host NavSamples.home_link
    (NavContext.NavLinkProvider NavSamples.inside_router NavSamples.bare_provider) mounted
  = NavPlus Samples.dev_host NavSamples.home_link
      (NavContext.NavLinkProvider NavSamples.inside_router
         {| NavContext.customMatchers := Some ∅;
            NavContext.customPrefetchDefaults := Some Prefetch.empty_options;
            NavContext.customRouterContext := None;
            NavContext.useReactRouterContext := None |}) mounted.
Proof.
  destruct (context_matters_by_routerContext Samples.dev_host NavSamples.home_link)
    as [_ Hprovider].
  destruct (Hprovider NavSamples.inside_router NavSamples.bare_provider
              {| NavContext.customMatchers := Some ∅;
                 NavContext.customPrefetchDefaults := Some Prefetch.empty_options;
                 NavContext.customRouterContext := None;
                 NavContext.useReactRouterContext := None |} eq_refl eq_refl)
    as [Hrender _].
  apply Hrender.
Defined.

(** X26.  What a [NavLinkProvider] gives the links below it.  Inside a
    router, unless it is told not to use the hooks or is given a custom router
    context, a link without [location], [navigate] and [routerContext] props
    takes its location and its [navigate] from React Router's hooks.  A custom
    router context hides the hooks.  Outside a router (a hook throws) and
    without a custom router context, such a link has no location and is
    inactive. *)
Theorem provider_router_context (hooks : NavContext.ReactRouterHooks)
    (provider : NavContext.NavLinkProviderProps) (p : Props) :
  location p = None → navigate p = None → routerContext p = None →
  let context := NavContext.NavLinkProvider hooks provider in
  (∀ f l,
     NavContext.useNavigate hooks = Normal f → NavContext.useLocation hooks = Normal l →
     NavContext.customRouterContext provider = None →
     NavContext.useReactRouterContext provider ≠ Some false →
     UseIsActive.location (isActive_options p context) = Some l
     ∧ navigate_of p context = Some f)
  ∧ (∀ rc,
       NavContext.customRouterContext provider = Some rc →
       UseIsActive.location (isActive_options p context) = NavContext.location rc
       ∧ navigate_of p context = NavContext.navigate rc)
  ∧ (NavContext.customRouterContext provider = None →
     (NavContext.useReactRouterContext provider = Some false
      ∨ (∃ err, NavContext.useNavigate hooks = Throw err)
      ∨ (∃ err, NavContext.useLocation hooks = Throw err)) →
     UseIsActive.useIsActive (to p) (isActive_options p context) = Normal false
     ∧ navigate_of p context = None).
Proof.
  intros Hlocation Hnavigate Hrc context. subst context.
  unfold isActive_options, navigate_of, routerContext_of. rewrite Hlocation, Hnavigate, Hrc.
  simpl. unfold NavContext.reactRouterContext. split_and!.
  - intros f l -> -> -> Hopt.
    by destruct (NavContext.useReactRouterContext provider) as [[]|].
  - by intros rc ->.
  - intros -> Hwhy. unfold UseIsActive.useIsActive. simpl.
    destruct Hwhy as [-> | [[err ->] | [err ->]]]; simpl; [done | |].
    + by destruct (default true (NavContext.useReactRouterContext provider)).
    + destruct (default true (NavContext.useReactRouterContext provider)); [| done].
      by destruct (NavContext.useNavigate hooks).
Qed.

Lemma provider_router_context_witness :
  UseIsActive.location
    (isActive_options NavSamples.home_link
       (NavContext.NavLinkProvider NavSamples.inside_router NavSamples.bare_provider))
  = Some {| UseIsActive.pathname := "/home" |}.
Proof.
  destruct (provider_router_context NavSamples.inside_router NavSamples.bare_provider
              (NavSamples.link "/home" None None None None None None ∅)
              eq_refl eq_refl eq_refl) as [Hinside _].
  destruct (Hinside NavSamples.go {| UseIsActive.pathname := "/home" |}
              eq_refl eq_refl eq_refl) as [Hlocation _]; [discriminate |].
  exact Hlocation.
Defined.

End Component.
